(** * Solar Manager forecast: the Estimate data model and its queries

    A shallow embedding of
    [custom_components/solar_manager_forecast/solar_manager_forecast.py]:
    [_timed_value], [_interval_value_sum], the [Estimate] dataclass with
    [from_solar_manager_data], [power_production_at_time] and
    [sum_energy_production], and the client method
    [SolarManagerSolarForecast.estimate]; and of their callers: the forecast
    list of sensor.py, the steps of config_flow.py, the coordinator of
    coordinator.py and the energy platform of energy.py.

    Modelling conventions.
    - A point in time is its number of microseconds since the Unix epoch
      (UTC), a [timedelta] a number of microseconds.  Python compares and
      hashes aware datetimes by that instant.
    - A time zone is a fixed UTC offset in microseconds, as
      [datetime.timezone] is.  Zones with transitions are outside the model.
    - Python floats are exact rationals ([Q]); [round] is round-half-to-even.
      Rounding error, overflow and the values NaN and Infinity are outside
      the model; [sample_energies_exact_in_binary64] checks the sample
      energies in binary64.
    - A mapping [Dict[datetime, int]] is an insertion-ordered association
      list, as iteration over it is.
    - An entry is a [Dict[str, Any]]; its field values are JSON scalars:
      null, booleans, numbers and strings.
    - Exceptions are values of [exn]; a computation that may raise returns a
      [result].
    - [datetime.fromisoformat], [int] on strings and the system's zone belong
      to the interpreter and are parameters of the construction; [iso_parse]
      and [dec_int] are a fragment of them to run the model with. *)

From Stdlib Require Import ZArith QArith Qround List String Ascii Bool.
From Stdlib Require Import Lia Lqa Permutation Sorted.
From Stdlib Require Import Floats.
Import ListNotations.
Open Scope Z_scope.

(** ** Exceptions *)

Inductive err_msg : Type :=
| NoBaseUrl      (* "No base URL or Smart Manager ID configured." *)
| FetchFailed    (* "Error fetching Solar Manager forecast: ..." *)
| BadFormat.     (* "Unexpected response format: 'data' field missing or not a list." *)

Inductive exn : Type :=
| TypeError
| AttributeError
| ValueError
| KeyError
| SolarManagerForecastError (m : err_msg).

Inductive result (A : Type) : Type :=
| Ok (a : A)
| Raise (e : exn).

Arguments Ok {A} a.
Arguments Raise {A} e.

Definition bind {A B : Type} (r : result A) (k : A -> result B) : result B :=
  match r with
  | Ok a => k a
  | Raise e => Raise e
  end.

Notation "x <- r ;; k" := (bind r (fun x => k))
  (at level 61, r at next level, right associativity).

(** ** JSON scalars and Python's coercions on them *)

Inductive json : Type :=
| JNull
| JBool (b : bool)
| JInt (n : Z)
| JFloat (q : Q)
| JStr (s : string).

(** An entry of the payload: a [Dict[str, Any]]. *)
Definition entry : Type := list (string * json).

Fixpoint dict_get (k : string) (d : entry) : option json :=
  match d with
  | [] => None
  | (k', v) :: d' => if String.eqb k k' then Some v else dict_get k d'
  end.

(** ["t" in e] *)
Definition has_key (k : string) (d : entry) : bool :=
  match dict_get k d with Some _ => true | None => false end.

(** Truth value of a JSON scalar; [None] (a missing key under [.get]) is
    falsy like [JNull]. *)
Definition truthy (v : json) : bool :=
  match v with
  | JNull => false
  | JBool b => b
  | JInt n => negb (n =? 0)
  | JFloat q => negb (Qnum q =? 0)
  | JStr s => negb (String.eqb s EmptyString)
  end.

Definition truthy_opt (v : option json) : bool :=
  match v with Some x => truthy x | None => false end.

(** [x or d] *)
Definition py_or (v : option json) (d : json) : json :=
  match v with
  | Some x => if truthy x then x else d
  | None => d
  end.

(** Truncation toward zero, as [int] does on a float. *)
Definition Qtrunc (q : Q) : Z := Z.quot (Qnum q) (Zpos (Qden q)).

Section Coercions.

(** [int] on a string is the interpreter's: [None] stands for the
    [ValueError] it raises on text that is no integer literal. *)
Variable int_of_str : string -> option Z.

(** [int(v)] *)
Definition py_int (v : json) : result Z :=
  match v with
  | JNull => Raise TypeError
  | JBool b => Ok (if b then 1 else 0)
  | JInt n => Ok n
  | JFloat q => Ok (Qtrunc q)
  | JStr s =>
      match int_of_str s with
      | Some n => Ok n
      | None => Raise ValueError
      end
  end.

End Coercions.

(** ** Time *)

Definition instant : Type := Z.
Definition timedelta : Type := Z.
Definition tzinfo : Type := timedelta.

Definition MICROSECOND : timedelta := 1.
Definition SECOND : timedelta := 1000000.
Definition MINUTE : timedelta := 60 * SECOND.
Definition HOUR : timedelta := 60 * MINUTE.

Definition utc : tzinfo := 0.

(** [dt.timedelta(minutes=m)], [dt.timedelta(hours=h)] *)
Definition timedelta_minutes (m : Z) : timedelta := m * MINUTE.
Definition timedelta_hours (h : Z) : timedelta := h * HOUR.

(** A datetime handed in from outside: naive (wall clock only) or aware. *)
Inductive datetime : Type :=
| Naive (wall : Z)
| Aware (at_utc : instant) (offset : tzinfo).

(** [d.replace(minute=mi, second=s, microsecond=us)] on a datetime of zone
    [tz] given by its instant: the wall clock keeps its hour. *)
Definition replace_minute_second_microsecond
           (tz : tzinfo) (d : instant) (mi s us : Z) : instant :=
  d - (d + tz) mod HOUR + mi * MINUTE + s * SECOND + us * MICROSECOND.

(** ** Insertion-ordered mappings from datetimes *)

Definition odict (V : Type) : Type := list (instant * V).

Fixpoint od_get {V : Type} (k : instant) (d : odict V) : option V :=
  match d with
  | [] => None
  | (k', v) :: d' => if k =? k' then Some v else od_get k d'
  end.

(** [d[k] = v]: an existing key keeps its place, a new one goes last. *)
Fixpoint od_set {V : Type} (k : instant) (v : V) (d : odict V) : odict V :=
  match d with
  | [] => [(k, v)]
  | (k', v') :: d' =>
      if k =? k' then (k', v) :: d' else (k', v') :: od_set k v d'
  end.

Definition keys {V : Type} (d : odict V) : list instant := map fst d.
Definition values {V : Type} (d : odict V) : list V := map snd d.

(** ** [_timed_value] *)

(** The [for] loop over the rest of the items, [value] being the last value
    seen. *)
Fixpoint timed_value_scan (at_ : instant) (value : Z) (rest : odict Z) : Z :=
  match rest with
  | [] => value
  | (timestamp, cur_value) :: rest' =>
      if timestamp >? at_ then value
      else timed_value_scan at_ cur_value rest'
  end.

Definition _timed_value (at_ : instant) (data : odict Z) : option Z :=
  match data with
  | [] => None
  | (first_ts, first_val) :: iterator =>
      if at_ <=? first_ts then Some first_val
      else Some (timed_value_scan at_ first_val iterator)
  end.

(** ** [_interval_value_sum] *)

Definition _interval_value_sum (start end_ : instant) (data : odict Z) : Z :=
  fold_left
    (fun total kv =>
       if (start <? fst kv) && (fst kv <=? end_) then total + snd kv
       else total)
    data 0.

(** ** Rounding *)

(** [round(x)] on a float: to the nearest integer, ties to the even one. *)
Definition py_round (x : Q) : Z :=
  let f := Qfloor x in
  match Qcompare (x - inject_Z f) (1 # 2) with
  | Lt => f
  | Gt => f + 1
  | Eq => if Z.even f then f else f + 1
  end.

(** ** The Estimate *)

Record Estimate : Type := mkEstimate {
  timezone : tzinfo;
  watts : odict Z;
  wh_period : odict Z;
  wh_hours : odict Z
}.

(** Stable insertion sort: what [sorted] returns on keys that compare. *)
Section Sorting.
Context {A : Type}.
Variable le : A -> A -> bool.

Fixpoint insert_sorted (x : A) (l : list A) : list A :=
  match l with
  | [] => [x]
  | y :: l' => if le x y then x :: l else y :: insert_sorted x l'
  end.

Fixpoint stable_sort (l : list A) : list A :=
  match l with
  | [] => []
  | x :: l' => insert_sorted x (stable_sort l')
  end.
End Sorting.

(** [e["t"]] for an entry that has the key. *)
Definition key_t (e : entry) : json :=
  match dict_get "t" e with Some v => v | None => JNull end.

Definition is_str (v : json) : bool :=
  match v with JStr _ => true | _ => false end.

Definition is_num (v : json) : bool :=
  match v with JBool _ | JInt _ | JFloat _ => true | _ => false end.

Definition num_value (v : json) : Q :=
  match v with
  | JBool b => if b then 1%Q else 0%Q
  | JInt n => inject_Z n
  | JFloat q => q
  | _ => 0%Q
  end.

Definition str_value (v : json) : string :=
  match v with JStr s => s | _ => EmptyString end.

Definition str_key_le (a b : entry) : bool :=
  String.leb (str_value (key_t a)) (str_value (key_t b)).

Definition num_key_le (a b : entry) : bool :=
  Qle_bool (num_value (key_t a)) (num_value (key_t b)).

(** [sorted((e for e in entries if "t" in e), key=lambda e: e["t"])].
    Strings compare with strings and numbers with numbers; [None] compares
    with nothing and unlike kinds do not compare: with two or more items the
    sort then raises [TypeError], every item taking part in a comparison. *)
Definition sorted_entries (entries : list entry) : result (list entry) :=
  let with_t := filter (has_key "t") entries in
  if (Z.of_nat (List.length with_t) <=? 1) then Ok with_t
  else if forallb (fun e => is_str (key_t e)) with_t
       then Ok (stable_sort str_key_le with_t)
  else if forallb (fun e => is_num (key_t e)) with_t
       then Ok (stable_sort num_key_le with_t)
  else Raise TypeError.

(** [s.replace("Z", "+00:00")] *)
Fixpoint replace_Z (s : string) : string :=
  match s with
  | EmptyString => EmptyString
  | String c s' =>
      if Ascii.eqb c "Z"%char then ("+00:00" ++ replace_Z s')%string
      else String c (replace_Z s')
  end.

Definition default_interval_15min : timedelta := timedelta_minutes 15.

Section Build.

(** The interpreter's part: [datetime.fromisoformat] ([None] for the
    [ValueError] on text it rejects), [int] on strings, and the offset of
    the system's zone, which [astimezone] presumes for a naive datetime. *)
Variable fromisoformat : string -> option datetime.
Variable int_of_str : string -> option Z.
Variable system_tz : tzinfo.

(** [d.astimezone(tz)]: the same instant, shown in [tz]. *)
Definition astimezone (d : datetime) (tz : tzinfo) : instant :=
  match d with
  | Naive wall => wall - system_tz
  | Aware u _ => u
  end.

(** First loop: fills [timestamps_local] and [watts]. *)
Fixpoint fill_watts (tz : tzinfo) (sorted : list entry)
         (timestamps_local : list instant) (watts : odict Z)
  : result (list instant * odict Z) :=
  match sorted with
  | [] => Ok (timestamps_local, watts)
  | e :: sorted' =>
      let t_str := dict_get "t" e in
      if negb (truthy_opt t_str) then
        fill_watts tz sorted' timestamps_local watts
      else
        match t_str with
        | Some (JStr s) =>
            match fromisoformat (replace_Z s) with
            | None => Raise ValueError
            | Some t_utc =>
                let t_local := astimezone t_utc tz in
                power_w <- py_int int_of_str (py_or (dict_get "pW" e) (JInt 0)) ;;
                fill_watts tz sorted'
                           (timestamps_local ++ [t_local])
                           (od_set t_local power_w watts)
            end
        | _ => Raise AttributeError
        end
  end.

(** [wh_hours_acc[k] = wh_hours_acc.get(k, 0.0) + wh] *)
Definition acc_add (k : instant) (wh : Q) (acc : odict Q) : odict Q :=
  od_set k (match od_get k acc with Some x => x | None => 0%Q end + wh)%Q acc.

(** Second loop, over [enumerate(timestamps_local)]: the list still to
    visit starts with [t_start], its next item is
    [timestamps_local[idx + 1]]. *)
Fixpoint fill_energy (tz : tzinfo) (default_interval : timedelta)
         (watts : odict Z) (todo : list instant)
         (wh_period : odict Z) (wh_hours_acc : odict Q)
  : result (odict Z * odict Q) :=
  match todo with
  | [] => Ok (wh_period, wh_hours_acc)
  | t_start :: todo' =>
      match od_get t_start watts with
      | None => Raise KeyError
      | Some power_w =>
          let t_end :=
            match todo' with
            | t_next :: _ => t_next
            | [] => t_start + default_interval
            end in
          let delta_hours := (inject_Z (t_end - t_start) / inject_Z HOUR)%Q in
          if Qle_bool delta_hours 0 then
            fill_energy tz default_interval watts todo' wh_period wh_hours_acc
          else
            let wh := (inject_Z power_w * delta_hours)%Q in
            let hour_start :=
              replace_minute_second_microsecond tz t_start 0 0 0 in
            fill_energy tz default_interval watts todo'
                        (od_set t_start (py_round wh) wh_period)
                        (acc_add hour_start wh wh_hours_acc)
      end
  end.

Definition from_solar_manager_data
           (entries : list entry) (tz : tzinfo) (default_interval : timedelta)
  : result Estimate :=
  sorted <- sorted_entries entries ;;
  tw <- fill_watts tz sorted [] [] ;;
  pa <- fill_energy tz default_interval (snd tw) (fst tw) [] [] ;;
  Ok {| timezone := tz;
        watts := snd tw;
        wh_period := fst pa;
        wh_hours := map (fun kv => (fst kv, py_round (snd kv))) (snd pa) |}.

(** ** The client

    What one GET brings back: [Failed] for any exception raised by
    [session.get], [raise_for_status] or [resp.json()], else the parsed
    body.  Of the body only the top-level shape matters: a dict, with or
    without a [data] field, which is a list of entries or something
    else. *)
Inductive data_field : Type :=
| DataList (entries : list entry)
| DataOther.

Inductive payload : Type :=
| PayloadDict (data : option data_field)
| PayloadOther.

Inductive response : Type :=
| Failed
| Json (body : payload).

Record SolarManagerSolarForecast : Type := mkClient {
  _base_url : option string;
  _timezone : tzinfo;
  _auth : option (string * string)
}.

Definition nonempty (s : option string) : bool :=
  match s with
  | Some x => negb (String.eqb x EmptyString)
  | None => false
  end.

(** [SolarManagerSolarForecast.__init__] *)
Definition init (base_url smart_manager_id : option string)
           (tz : option tzinfo) (username password : option string)
  : SolarManagerSolarForecast :=
  {| _base_url :=
       if nonempty base_url then base_url
       else if nonempty smart_manager_id then
         match smart_manager_id with
         | Some id =>
             Some ("https://cloud.solar-manager.ch/v3/users/" ++ id
                     ++ "/data/forecast")%string
         | None => None
         end
       else None;
     _timezone := match tz with Some z => z | None => utc end;
     _auth :=
       if nonempty username && nonempty password then
         match username, password with
         | Some u, Some p => Some (u, p)
         | _, _ => None
         end
       else None |}.

(** The session: what the [n]-th GET brings back for a URL and credentials
    ([self._session.get(self._base_url, timeout=20, auth=self._auth)]).  The
    state threaded through [estimate] is the number of requests sent so
    far. *)
Variable session : string -> option (string * string) -> nat -> response.

(** [SolarManagerSolarForecast.estimate] *)
Definition estimate (self : SolarManagerSolarForecast) (sent : nat)
  : result Estimate * nat :=
  if negb (nonempty (_base_url self)) then
    (Raise (SolarManagerForecastError NoBaseUrl), sent)
  else
    match _base_url self with
    | None => (Raise (SolarManagerForecastError NoBaseUrl), sent)
    | Some url =>
        match session url (_auth self) sent with
        | Failed => (Raise (SolarManagerForecastError FetchFailed), S sent)
        | Json PayloadOther => (Raise AttributeError, S sent)
        | Json (PayloadDict data) =>
            match data with
            | Some (DataList entries) =>
                (from_solar_manager_data entries (_timezone self)
                                         default_interval_15min,
                 S sent)
            | _ => (Raise (SolarManagerForecastError BadFormat), S sent)
            end
        end
    end.

End Build.

(** [Estimate.power_production_at_time]: the value of
    [_timed_value(at, self.watts) or 0], [None] being Python's. *)
Definition normalize (tz : tzinfo) (at_ : datetime) : instant :=
  match at_ with
  | Naive wall => wall - tz          (* at.replace(tzinfo=self.timezone) *)
  | Aware u _ => u                   (* at.astimezone(self.timezone) *)
  end.

Definition or_zero (v : option Z) : option Z :=
  match v with
  | Some x => if x =? 0 then Some 0 else Some x
  | None => Some 0
  end.

Definition power_production_at_time (self : Estimate) (at_ : datetime)
  : option Z :=
  or_zero (_timed_value (normalize (timezone self) at_) (watts self)).

(** [Estimate.sum_energy_production]; [now] is what [self.now()] returns. *)
Definition sum_energy_production (self : Estimate) (now : instant)
           (period_hours : Z) : Z :=
  let now' := replace_minute_second_microsecond (timezone self) now 59 59 999 in
  let until := now' + timedelta_hours period_hours in
  _interval_value_sum now' until (wh_hours self).

(** ** A fragment of the interpreter, for running the model

    [iso_parse] reads [YYYY-MM-DDTHH:MM:SS] with an optional [+HH:MM] or
    [-HH:MM], as [datetime.fromisoformat] does on such text; [dec_int] reads
    an optional sign and decimal digits, as [int] does. *)

Definition digit_of (c : ascii) : option Z :=
  let n := Z.of_N (N_of_ascii c) in
  if (48 <=? n) && (n <=? 57) then Some (n - 48) else None.

Fixpoint digits_value (acc : Z) (cs : list ascii) : option Z :=
  match cs with
  | [] => Some acc
  | c :: cs' =>
      match digit_of c with
      | Some d => digits_value (10 * acc + d) cs'
      | None => None
      end
  end.

Definition number_of (cs : list ascii) : option Z :=
  match cs with
  | [] => None
  | _ => digits_value 0 cs
  end.

Definition dec_int (s : string) : option Z :=
  match list_ascii_of_string s with
  | "-"%char :: cs =>
      match number_of cs with Some n => Some (- n) | None => None end
  | "+"%char :: cs => number_of cs
  | cs => number_of cs
  end.

Definition is_leap (y : Z) : bool :=
  ((y mod 4 =? 0) && negb (y mod 100 =? 0)) || (y mod 400 =? 0).

Definition days_in_month (y m : Z) : Z :=
  if m =? 2 then (if is_leap y then 29 else 28)
  else if (m =? 4) || (m =? 6) || (m =? 9) || (m =? 11) then 30
  else 31.

(** Days from 1970-01-01 to the given day of the proleptic Gregorian
    calendar. *)
Definition days_from_civil (y m d : Z) : Z :=
  let y' := if m <=? 2 then y - 1 else y in
  let era := y' / 400 in
  let yoe := y' - era * 400 in
  let doy := (153 * (if m >? 2 then m - 3 else m + 9) + 2) / 5 + d - 1 in
  let doe := yoe * 365 + yoe / 4 - yoe / 100 + doy in
  era * 146097 + doe - 719468.

(** The wall clock [y-m-d h:mi:s], in microseconds. *)
Definition wall_clock (y m d h mi s : Z) : Z :=
  days_from_civil y m d * (24 * HOUR) + h * HOUR + mi * MINUTE + s * SECOND.

Definition parse_wall (cs : list ascii) : option Z :=
  match cs with
  | [y1; y2; y3; y4; "-"; m1; m2; "-"; d1; d2; "T";
     h1; h2; ":"; i1; i2; ":"; s1; s2]%char =>
      match number_of [y1; y2; y3; y4], number_of [m1; m2], number_of [d1; d2],
            number_of [h1; h2], number_of [i1; i2], number_of [s1; s2] with
      | Some y, Some m, Some d, Some h, Some mi, Some s =>
          if (1 <=? y) && (1 <=? m) && (m <=? 12) && (1 <=? d)
             && (d <=? days_in_month y m) && (h <=? 23) && (mi <=? 59)
             && (s <=? 59)
          then Some (wall_clock y m d h mi s)
          else None
      | _, _, _, _, _, _ => None
      end
  | _ => None
  end.

Definition parse_offset (cs : list ascii) : option tzinfo :=
  match cs with
  | [sign; h1; h2; ":"; m1; m2]%char =>
      match number_of [h1; h2], number_of [m1; m2] with
      | Some h, Some m =>
          if (h <=? 23) && (m <=? 59) then
            if Ascii.eqb sign "+" then Some (h * HOUR + m * MINUTE)
            else if Ascii.eqb sign "-" then Some (- (h * HOUR + m * MINUTE))
            else None
          else None
      | _, _ => None
      end
  | _ => None
  end.

Definition iso_parse (s : string) : option datetime :=
  let cs := list_ascii_of_string s in
  match parse_wall (firstn 19 cs) with
  | None => None
  | Some wall =>
      match skipn 19 cs with
      | [] => Some (Naive wall)
      | rest =>
          match parse_offset rest with
          | Some off => Some (Aware (wall - off) off)
          | None => None
          end
      end
  end.

(** [Estimate.from_solar_manager_data] run with that fragment, the system
    zone being UTC. *)
Definition build (entries : list entry) (tz : tzinfo) : result Estimate :=
  from_solar_manager_data iso_parse dec_int utc entries tz
                          default_interval_15min.

(** The instant of a UTC wall clock. *)
Definition at_utc_time (y m d h mi s : Z) : instant := wall_clock y m d h mi s.

Definition sample (t : string) (pW : json) : entry := [("t"%string, JStr t); ("pW"%string, pW)].


(** ** Notions the properties are stated with *)

(** Keys strictly increasing in time, in stored order. *)
Definition increasing (l : list instant) : Prop := StronglySorted Z.lt l.

(** Timestamps in time order, equal neighbours allowed. *)
Definition nondecreasing (l : list instant) : Prop := StronglySorted Z.le l.

Definition sum_values (l : list Z) : Z := fold_right Z.add 0 l.

(** The window [(start, end_]]. *)
Definition in_window (start end_ : instant) (kv : instant * Z) : bool :=
  (start <? fst kv) && (fst kv <=? end_).

(** [self.now().replace(minute=59, second=59, microsecond=999)] and the top
    of the hour that holds [now]. *)
Definition window_start (tz : tzinfo) (now : instant) : instant :=
  replace_minute_second_microsecond tz now 59 59 999.

Definition top_of_hour (tz : tzinfo) (now : instant) : instant :=
  replace_minute_second_microsecond tz now 0 0 0.

(** ** Sample data *)

Definition t_10_00 : instant := at_utc_time 2024 1 1 10 0 0.
Definition t_10_15 : instant := at_utc_time 2024 1 1 10 15 0.
Definition t_10_30 : instant := at_utc_time 2024 1 1 10 30 0.

Definition estimate_sample : Estimate :=
  {| timezone := utc;
     watts := [(t_10_00, 100); (t_10_15, 200); (t_10_30, 0)];
     wh_period := [(t_10_00, 25); (t_10_15, 50); (t_10_30, 0)];
     wh_hours := [(t_10_00, 75)] |}.

Definition estimate_empty : Estimate :=
  {| timezone := utc; watts := []; wh_period := []; wh_hours := [] |}.

(** 2024-01-01 10:20:30.5 UTC: inside the hour of [t_10_00], off any minute
    boundary. *)
Definition now_sample : instant :=
  at_utc_time 2024 1 1 10 20 30 + 500000 * MICROSECOND.

(** The payload of the concrete scenario. *)
Definition scenario_entries : list entry :=
  [sample "2024-01-01T10:00:00Z" (JInt 100);
   sample "2024-01-01T10:15:00Z" (JInt 200);
   sample "2024-01-01T10:30:00Z" (JInt 0)].

Definition client_sample : SolarManagerSolarForecast :=
  init None (Some "sm-1"%string) (Some utc) None None.

(** A session that answers every GET with the scenario's payload. *)
Definition session_sample (url : string) (auth : option (string * string))
           (n : nat) : response :=
  Json (PayloadDict (Some (DataList scenario_entries))).

(** ** What the construction keeps of an entry *)

Section Samples.

Variable fromisoformat : string -> option datetime.
Variable int_of_str : string -> option Z.
Variable system_tz : tzinfo.
Variable tz : tzinfo.

(** The localized timestamp the first loop stores for an entry; [None] for
    an entry it skips or cannot read. *)
Definition stamp (e : entry) : option instant :=
  match dict_get "t" e with
  | Some (JStr s) =>
      if String.eqb s EmptyString then None
      else
        match fromisoformat (replace_Z s) with
        | Some d => Some (astimezone system_tz d tz)
        | None => None
        end
  | _ => None
  end.

Definition stamps (l : list entry) : list instant :=
  flat_map (fun e => match stamp e with Some t => [t] | None => [] end) l.

(** The filtered samples: entries with a truthy [t]. *)
Definition kept (e : entry) : bool := truthy_opt (dict_get "t" e).

(** The order of the [t] texts is the order of the times they denote, as it
    is when all texts have one layout and one offset. *)
Definition text_order_is_time_order (entries : list entry) : Prop :=
  forall a b ta tb,
    In a entries -> In b entries ->
    stamp a = Some ta -> stamp b = Some tb ->
    str_key_le a b = true -> ta <= tb.

(** An entry the construction can read: a non-empty text [t] that
    [fromisoformat] accepts and a [pW] that is missing, falsy or accepted by
    [int]. *)
Definition readable (e : entry) : bool :=
  match dict_get "t" e with
  | Some (JStr s) =>
      negb (String.eqb s EmptyString)
      && match fromisoformat (replace_Z s) with Some _ => true | None => false end
      && match py_int int_of_str (py_or (dict_get "pW" e) (JInt 0)) with
         | Ok _ => true
         | Raise _ => false
         end
  | _ => false
  end.

End Samples.

(** The keys of a mapping after [d[k] = v]. *)
Definition add_key (ks : list instant) (k : instant) : list instant :=
  if existsb (Z.eqb k) ks then ks else ks ++ [k].

Definition Qsum (l : list Q) : Q := fold_right Qplus 0%Q l.

(** Two samples at one instant. *)
Definition duplicate_entries : list entry :=
  [sample "2024-01-01T10:00:00Z" (JInt 100);
   sample "2024-01-01T10:00:00Z" (JInt 200)].

(** Later texts that denote earlier times: 10:45 at +05:00 is 05:45 UTC. *)
Definition mixed_offset_entries : list entry :=
  [sample "2024-01-01T10:00:00+00:00" (JInt 6);
   sample "2024-01-01T10:30:00+00:00" (JInt 6);
   sample "2024-01-01T10:45:00+05:00" (JInt 6)].

(** Three quarter hours at 6 W: 1.5 Wh each, 4.5 Wh in the hour. *)
Definition six_watt_entries : list entry :=
  [sample "2024-01-01T10:00:00Z" (JInt 6);
   sample "2024-01-01T10:15:00Z" (JInt 6);
   sample "2024-01-01T10:30:00Z" (JInt 6)].

(** Ten entries, three of them without [t]. *)
Definition ten_entries : list entry :=
  [sample "2024-01-01T10:00:00Z" (JInt 100);
   [("pW"%string, JInt 5)];
   sample "2024-01-01T10:15:00Z" (JInt 200);
   sample "2024-01-01T10:30:00Z" (JFloat (25 # 2));
   [];
   sample "2024-01-01T10:45:00Z" JNull;
   sample "2024-01-01T11:00:00Z" (JStr "40");
   [("pW"%string, JStr "abc")];
   [("t"%string, JStr "2024-01-01T11:15:00Z")];
   sample "2024-01-01T11:30:00Z" (JInt 0)].

(** A reading that is no number. *)
Definition non_numeric_entries : list entry :=
  [sample "2024-01-01T10:00:00Z" (JStr "abc")].

(** A null [t] beside a well-formed sample, and the sample alone. *)
Definition null_t_entries : list entry :=
  [[("t"%string, JNull); ("pW"%string, JInt 100)];
   sample "2024-01-01T10:00:00Z" (JInt 100)].

Definition without_null_t_entries : list entry :=
  [[("pW"%string, JInt 100)];
   sample "2024-01-01T10:00:00Z" (JInt 100)].


(** An empty text [t] beside the same sample. *)
Definition empty_t_entries : list entry :=
  [[("t"%string, JStr ""); ("pW"%string, JInt 100)];
   sample "2024-01-01T10:00:00Z" (JInt 100)].


(** A key exactly on the hour of the zone [tz]. *)
Definition on_the_hour (tz : tzinfo) (k : instant) : Prop :=
  (k + tz) mod HOUR = 0.

(** ** Energies in binary64

    The energy of a period as the interpreter computes it in floating
    point, [power_w * (total_seconds / 3600.0)], to compare the exact model
    with at sample inputs. *)
Definition wh_binary64 (power_w seconds : float) : float :=
  (power_w * (seconds / 3600))%float.

(** ** More of the Estimate and its callers *)

(** [Estimate.power_production_now]; [now] is what [self.now()] returns, a
    datetime of the Estimate's zone. *)
Definition power_production_now (self : Estimate) (now : instant) : option Z :=
  power_production_at_time self (Aware now (timezone self)).

(** sensor.py, [_power_production_next_24h_15min]: the power at [now] and at
    the 95 quarter hours after it. *)
Definition _power_production_next_24h_15min (estimate : Estimate)
           (now : instant) : list (option Z) :=
  map (fun i =>
         power_production_at_time
           estimate
           (Aware (now + timedelta_minutes (15 * Z.of_nat i))
                  (timezone estimate)))
      (seq 0 96).

(** The states of the sensors [power_production_next_15minutes] and
    [power_production_next_30minutes] of sensor.py. *)
Definition power_production_next_15minutes (estimate : Estimate)
           (now : instant) : option Z :=
  power_production_at_time
    estimate (Aware (now + timedelta_minutes 15) (timezone estimate)).

Definition power_production_next_30minutes (estimate : Estimate)
           (now : instant) : option Z :=
  power_production_at_time
    estimate (Aware (now + timedelta_minutes 30) (timezone estimate)).

(** ** Notions for further properties *)

(** The value a mapping holds for a key, 0 when it has none. *)
Definition bucket (d : odict Z) (k : instant) : Z :=
  match od_get k d with Some v => v | None => 0 end.

(** The energies of the periods between the keys of [watts], the last
    period lasting [default_interval]: what [wh_period] is to hold. *)
Fixpoint period_energies (default_interval : timedelta) (w : odict Z)
  : odict Z :=
  match w with
  | [] => []
  | (k, p) :: w' =>
      let t_end :=
        match w' with
        | (k', _) :: _ => k'
        | [] => k + default_interval
        end in
      if t_end - k <=? 0 then period_energies default_interval w'
      else (k, py_round (inject_Z p * (inject_Z (t_end - k) / inject_Z HOUR)))
             :: period_energies default_interval w'
  end.

(** ** Configuration entries: config_flow.py and coordinator.py

    The data and the options of a config entry are mappings from keys to
    texts, as the schema of the forms makes them. *)

Definition config : Type := list (string * string).

Fixpoint config_get (k : string) (c : config) : option string :=
  match c with
  | [] => None
  | (k', v) :: c' => if String.eqb k k' then Some v else config_get k c'
  end.

(** const.py, and [CONF_NAME], [CONF_USERNAME], [CONF_PASSWORD] of
    [homeassistant.const]. *)
Definition NAME : string := "Solar Manager Forecast".
Definition CONF_SMART_MANAGER_ID : string := "smid".
Definition CONF_BASE_URL : string := "base_url".
Definition CONF_NAME : string := "name".
Definition CONF_USERNAME : string := "username".
Definition CONF_PASSWORD : string := "password".

Record ConfigEntry : Type := mkEntry {
  entry_title : string;
  entry_data : config;
  entry_options : config
}.

(** [a or b] on optional texts. *)
Definition or_else (a b : option string) : option string :=
  if nonempty a then a else b.

(** [validate_input]: the title, or [InvalidHost]. *)
Inductive validation : Type :=
| Valid (title : string)
| InvalidHost.

Definition validate_input (data : config) : validation :=
  if negb (nonempty (config_get CONF_SMART_MANAGER_ID data)) then InvalidHost
  else
    Valid (match or_else (config_get CONF_NAME data) (Some NAME) with
           | Some title => title
           | None => NAME
           end).

(** What a step of a flow returns: a form with its defaults and errors, an
    abort because the unique id is configured already, a new entry, or the
    [KeyError] of [user_input[CONF_SMART_MANAGER_ID]]. *)
Inductive FlowResult : Type :=
| ShowForm (defaults : config) (errors : option string)
| AbortAlreadyConfigured
| CreateEntry (title : string) (data : config) (options : option config)
| FlowKeyError.

(** [ConfigFlow.async_step_user]; [configured] tells the ids of the
    entries that exist. *)
Definition async_step_user (configured : string -> bool)
           (user_input : option config) : FlowResult :=
  match user_input with
  | None => ShowForm [] None
  | Some input =>
      match validate_input input with
      | InvalidHost => ShowForm input (Some "invalid_host"%string)
      | Valid title =>
          match config_get CONF_SMART_MANAGER_ID input with
          | None => FlowKeyError
          | Some id =>
              if configured id then AbortAlreadyConfigured
              else CreateEntry title input (Some input)
          end
      end
  end.

(** [{**a, **b}]: the items of [a] not in [b] stay first, those of [b]
    overwrite or follow. *)
Fixpoint config_set (k v : string) (c : config) : config :=
  match c with
  | [] => [(k, v)]
  | (k', v') :: c' =>
      if String.eqb k k' then (k', v) :: c' else (k', v') :: config_set k v c'
  end.

Definition config_merge (a b : config) : config :=
  fold_left (fun c kv => config_set (fst kv) (snd kv) c) b a.

(** [OptionsFlow.async_step_init] *)
Definition async_step_init (entry : ConfigEntry) (user_input : option config)
  : FlowResult :=
  match user_input with
  | None =>
      ShowForm (config_merge (entry_data entry) (entry_options entry)) None
  | Some input =>
      match validate_input input with
      | InvalidHost => ShowForm input (Some "invalid_host"%string)
      | Valid title => CreateEntry title input None
      end
  end.

(** The URL of the forecast of an account. *)
Definition forecast_url (id : string) : string :=
  ("https://cloud.solar-manager.ch/v3/users/" ++ id ++ "/data/forecast")%string.

(** [SolarManagerForecastDataUpdateCoordinator.__init__]: the client it
    makes; [tz] is [dt_util.get_time_zone(hass.config.time_zone)]. *)
Definition coordinator_forecast (entry : ConfigEntry) (tz : option tzinfo)
  : SolarManagerSolarForecast :=
  let smart_manager_id :=
    or_else (config_get CONF_SMART_MANAGER_ID (entry_options entry))
            (config_get CONF_SMART_MANAGER_ID (entry_data entry)) in
  let base_url :=
    if nonempty smart_manager_id then
      match smart_manager_id with
      | Some id => Some (forecast_url id)
      | None => None
      end
    else
      match entry_options entry with
      | [] => None
      | _ => config_get CONF_BASE_URL (entry_options entry)
      end in
  let username :=
    or_else (config_get CONF_USERNAME (entry_options entry))
            (config_get CONF_USERNAME (entry_data entry)) in
  let password :=
    or_else (config_get CONF_PASSWORD (entry_options entry))
            (config_get CONF_PASSWORD (entry_data entry)) in
  init base_url smart_manager_id tz username password.

(** [_async_update_data]: the new Estimate, or [UpdateFailed], told apart by
    its message: an error communicating with the API or an unexpected
    one. *)
Inductive update_result : Type :=
| Updated (data : Estimate)
| UpdateFailed (communicating : bool).

Section Update.

Variable fromisoformat : string -> option datetime.
Variable int_of_str : string -> option Z.
Variable system_tz : tzinfo.
Variable session : string -> option (string * string) -> nat -> response.

Definition _async_update_data (forecast : SolarManagerSolarForecast)
           (sent : nat) : update_result * nat :=
  match estimate fromisoformat int_of_str system_tz session forecast sent with
  | (Ok data, sent') => (Updated data, sent')
  | (Raise (SolarManagerForecastError _), sent') => (UpdateFailed true, sent')
  | (Raise _, sent') => (UpdateFailed false, sent')
  end.

End Update.

(** ** The energy platform: energy.py *)

(** A mapping from texts to integers, in insertion order. *)
Definition sdict : Type := list (string * Z).

Fixpoint sd_set (k : string) (v : Z) (d : sdict) : sdict :=
  match d with
  | [] => [(k, v)]
  | (k', v') :: d' =>
      if String.eqb k k' then (k', v) :: d' else (k', v') :: sd_set k v d'
  end.

Section Energy.

(** [timestamp.isoformat()] of a datetime of a zone: the interpreter's. *)
Variable isoformat : tzinfo -> instant -> string.

(** [async_get_solar_forecast]: [coordinator] is
    [hass.data[DOMAIN].get(config_entry_id)] with its [data]; the result is
    the mapping under ["wh_hours"], or [None]. *)
Definition async_get_solar_forecast (coordinator : option (option Estimate))
  : option sdict :=
  match coordinator with
  | None => None
  | Some None => None
  | Some (Some estimate) =>
      match wh_hours estimate with
      | [] => None
      | items =>
          Some (fold_left
                  (fun d kv =>
                     sd_set (isoformat (timezone estimate) (fst kv)) (snd kv) d)
                  items [])
      end
  end.

End Energy.

(** What a user enters in the form, and an entry with a [base_url] in its
    data only. *)
Definition input_sample : config :=
  [("name", "Roof"); ("username", "u"); ("password", "p");
   ("smid", "sm-1")]%string.

Definition entry_without_id : ConfigEntry :=
  mkEntry "Roof" [("base_url", "http://localhost/forecast")]%string [].

(** ** The reading of an entry *)

Section Readings.

Variable fromisoformat : string -> option datetime.
Variable int_of_str : string -> option Z.
Variable system_tz : tzinfo.
Variable tz : tzinfo.

(** The timestamp and the power that the first loop stores for an entry. *)
Definition reading (e : entry) : option (instant * Z) :=
  match stamp fromisoformat system_tz tz e,
        py_int int_of_str (py_or (dict_get "pW" e) (JInt 0)) with
  | Some t, Ok p => Some (t, p)
  | _, _ => None
  end.

(** The power of the last entry of a list whose timestamp is [k]; [acc]
    when it has none. *)
Definition last_reading (k : instant) (acc : option Z) (l : list entry)
  : option Z :=
  fold_left
    (fun acc e =>
       match reading e with
       | Some (t, p) => if t =? k then Some p else acc
       | None => acc
       end)
    l acc.

Definition stamped (k : instant) (e : entry) : bool :=
  match stamp fromisoformat system_tz tz e with
  | Some t => t =? k
  | None => false
  end.

(** One assignment [watts[t_local] = power_w] of the first loop. *)
Definition store (w : odict Z) (e : entry) : odict Z :=
  match reading e with
  | Some (t, p) => od_set t p w
  | None => w
  end.

End Readings.

(** * Properties *)

(** ** Step-function lookup *)

Lemma increasing_keys_functional :
  forall (d : odict Z) k v v',
    increasing (keys d) -> In (k, v) d -> In (k, v') d -> v = v'.
Proof.
  induction d as [|[k0 v0] d IH]; intros k v v' Hs Hin Hin'.
  - contradiction.
  - unfold increasing, keys in Hs. simpl in Hs.
    apply StronglySorted_inv in Hs. destruct Hs as [Hs Hall].
    rewrite Forall_forall in Hall.
    assert (Hfresh : forall x, In (k0, x) d -> False).
    { intros x Hx. apply (in_map fst) in Hx. simpl in Hx.
      apply Hall in Hx. lia. }
    destruct Hin as [E|Hin], Hin' as [E'|Hin'].
    + congruence.
    + inversion E; subst. exfalso. eapply Hfresh; eauto.
    + inversion E'; subst. exfalso. eapply Hfresh; eauto.
    + eapply IH; eauto.
Qed.

Lemma increasing_head_least :
  forall (k0 : instant) (l : list instant) k,
    increasing (k0 :: l) -> In k (k0 :: l) -> k0 <= k.
Proof.
  intros k0 l k Hs Hin. apply StronglySorted_inv in Hs.
  destruct Hs as [_ Hall]. rewrite Forall_forall in Hall.
  destruct Hin as [->|Hin]; [lia|]. apply Hall in Hin. lia.
Qed.

(** The scan returns the value of the latest item at or before [at_]. *)
Lemma timed_value_scan_latest :
  forall at_ (rest : odict Z) k0 v0,
    increasing (k0 :: keys rest) -> k0 <= at_ ->
    exists k,
      In (k, timed_value_scan at_ v0 rest) ((k0, v0) :: rest) /\ k <= at_ /\
      forall k' x', In (k', x') ((k0, v0) :: rest) -> k' <= at_ -> k' <= k.
Proof.
  intros at_ rest. induction rest as [|[k1 v1] rest IH]; intros k0 v0 Hs Hle.
  - exists k0. simpl. split; [auto|]. split; [assumption|].
    intros k' x' [E|[]] _. inversion E; lia.
  - simpl. destruct (k1 >? at_) eqn:Hgt.
    + exists k0. split; [left; reflexivity|]. split; [assumption|].
      intros k' x' Hin Hk'. destruct Hin as [E|Hin]; [inversion E; lia|].
      exfalso. apply Z.gtb_lt in Hgt.
      assert (k1 <= k').
      { apply StronglySorted_inv in Hs. destruct Hs as [Hs _].
        apply (increasing_head_least k1 (keys rest) k' Hs).
        exact (in_map fst ((k1, v1) :: rest) (k', x') Hin). }
      lia.
    + assert (Hk1 : k1 <= at_).
      { destruct (Z.gtb_spec k1 at_); [discriminate|lia]. }
      pose proof Hs as Hs0.
      apply StronglySorted_inv in Hs. destruct Hs as [Hs Hall].
      destruct (IH k1 v1 Hs Hk1) as [k [Hin [Hk Hmax]]].
      exists k. split; [right; exact Hin|]. split; [assumption|].
      intros k' x' Hin' Hk'. destruct Hin' as [E|Hin'].
      * inversion E; subst.
        assert (k' < k1) by (inversion Hall; assumption).
        specialize (Hmax k1 v1 (or_introl eq_refl) Hk1). lia.
      * eapply Hmax; eauto.
Qed.

Lemma or_zero_some : forall v, or_zero (Some v) = Some v.
Proof.
  intros v. unfold or_zero. destruct (Z.eqb_spec v 0); congruence.
Qed.

Lemma last_in_cons :
  forall (A : Type) (l : list A) (a d : A), In (last (a :: l) d) (a :: l).
Proof.
  intros A l. induction l as [|b l IH]; intros a d.
  - left. reflexivity.
  - right. change (last (a :: b :: l) d) with (last (b :: l) d). apply IH.
Qed.

Lemma increasing_last_greatest :
  forall (l : list instant) k0 k d,
    increasing (k0 :: l) -> In k (k0 :: l) -> k <= last (k0 :: l) d.
Proof.
  induction l as [|k1 l IH]; intros k0 k d Hs Hin.
  - destruct Hin as [->|[]]. simpl. lia.
  - change (last (k0 :: k1 :: l) d) with (last (k1 :: l) d).
    pose proof Hs as Hs0.
    apply StronglySorted_inv in Hs. destruct Hs as [Hs Hall].
    destruct Hin as [->|Hin].
    + assert (k < k1) by (inversion Hall; assumption).
      specialize (IH k1 k1 d Hs (or_introl eq_refl)). lia.
    + apply IH; assumption.
Qed.

Lemma last_map_fst :
  forall (d : odict Z) (a dflt : instant * Z),
    fst (last (a :: d) dflt) = last (keys (a :: d)) (fst dflt).
Proof.
  induction d as [|b d IH]; intros a dflt.
  - reflexivity.
  - change (last (a :: b :: d) dflt) with (last (b :: d) dflt).
    unfold keys. simpl map.
    change (last (fst a :: fst b :: map fst d) (fst dflt))
      with (last (fst b :: map fst d) (fst dflt)).
    apply IH.
Qed.


Lemma increasing_sample_keys : increasing (keys (watts estimate_sample)).
Proof.
  unfold increasing. simpl.
  repeat (constructor; [|repeat constructor; vm_compute; reflexivity]).
  constructor.
Defined.


(** ** Empty series *)

(** C7, as the code has it: on an empty [watts], [_timed_value] returns
    [None], and [power_production_at_time] itself turns that into 0 (its
    [or 0]), for every query time. *)
Theorem power_at_empty_is_zero :
  forall (tz : tzinfo) (wp wh : odict Z) (at_ : datetime),
    _timed_value (normalize tz at_) [] = None /\
    power_production_at_time (mkEstimate tz [] wp wh) at_ = Some 0.
Proof.
  intros tz wp wh at_. split; reflexivity.
Qed.

(** C7 fails as stated: with an empty [watts] the method returns the number
    0, not [None]. *)
Lemma power_at_empty_not_absent :
  watts estimate_empty = [] /\
  power_production_at_time estimate_empty (Aware t_10_00 utc) = Some 0 /\
  power_production_at_time estimate_empty (Aware t_10_00 utc) <> None.
Proof.
  split; [reflexivity|]. split; [reflexivity|]. discriminate.
Qed.

(** ** Energy over the coming hours *)

Lemma fold_window_sum :
  forall start end_ (data : odict Z) (total : Z),
    fold_left
      (fun total kv =>
         if (start <? fst kv) && (fst kv <=? end_) then total + snd kv
         else total)
      data total
    = total + sum_values (values (filter (in_window start end_) data)).
Proof.
  intros start end_ data. induction data as [|[k v] data IH]; intros total.
  - simpl. lia.
  - simpl. rewrite IH. unfold in_window at 2. simpl fst. simpl snd.
    destruct ((start <? k) && (k <=? end_)); simpl; lia.
Qed.

Lemma interval_value_sum_window :
  forall start end_ (data : odict Z),
    _interval_value_sum start end_ data
    = sum_values (values (filter (in_window start end_) data)).
Proof.
  intros. unfold _interval_value_sum. rewrite fold_window_sum. lia.
Qed.

Lemma window_sum_none :
  forall start end_ (data : odict Z),
    (forall k v, In (k, v) data -> ~ (start < k <= end_)) ->
    sum_values (values (filter (in_window start end_) data)) = 0.
Proof.
  intros start end_ data. induction data as [|[k v] d IH]; intros Hnone.
  - reflexivity.
  - simpl. unfold in_window at 1. simpl fst.
    destruct ((start <? k) && (k <=? end_)) eqn:Hin.
    + exfalso. apply andb_prop in Hin. destruct Hin as [Ha Hb].
      apply Z.ltb_lt in Ha. apply Z.leb_le in Hb.
      apply (Hnone k v); [left; reflexivity|lia].
    + apply IH. intros k' v' Hin'. apply (Hnone k' v'). right. exact Hin'.
Qed.

Lemma window_start_fields :
  forall tz now,
    (window_start tz now + tz) mod HOUR = 59 * MINUTE + 59 * SECOND + 999 /\
    (window_start tz now + tz) / HOUR = (now + tz) / HOUR /\
    top_of_hour tz now < window_start tz now /\
    top_of_hour tz now <= now < top_of_hour tz now + HOUR.
Proof.
  intros tz now.
  unfold window_start, top_of_hour, replace_minute_second_microsecond.
  assert (HH : HOUR = 3600000000) by reflexivity.
  assert (HM : MINUTE = 60000000) by reflexivity.
  assert (HS : SECOND = 1000000) by reflexivity.
  assert (HU : MICROSECOND = 1) by reflexivity.
  rewrite HH, HM, HS, HU.
  pose proof (Z.mod_pos_bound (now + tz) 3600000000 ltac:(lia)) as Hb.
  pose proof (Z.div_mod (now + tz) 3600000000 ltac:(lia)) as Hd.
  set (q := (now + tz) / 3600000000) in *.
  set (m := (now + tz) mod 3600000000) in *.
  assert (E : now - m + 59 * 60000000 + 59 * 1000000 + 999 * 1 + tz
              = 3600000000 * q + 3599000999) by lia.
  rewrite E. repeat split.
  - symmetry. apply (Z.mod_unique _ _ q); lia.
  - symmetry. apply (Z.div_unique _ _ q 3599000999); lia.
  - lia.
  - lia.
  - lia.
Qed.

(** On keys that lie on the hour, every start between [window_start] and the
    end of the current hour selects the same entries. *)
Lemma window_same_hour_start :
  forall tz now n start' (data : odict Z),
    window_start tz now <= start' < top_of_hour tz now + HOUR ->
    (forall k v, In (k, v) data -> on_the_hour tz k) ->
    filter (in_window start' (start' + n * HOUR)) data
    = filter (in_window (window_start tz now)
                        (window_start tz now + n * HOUR)) data.
Proof.
  intros tz now n start' data Hs Hkeys.
  apply filter_ext_in. intros [k v] Hin. unfold in_window. simpl fst.
  specialize (Hkeys k v Hin). unfold on_the_hour in Hkeys.
  revert Hs Hkeys.
  unfold window_start, top_of_hour, replace_minute_second_microsecond.
  assert (HH : HOUR = 3600000000) by reflexivity.
  assert (HM : MINUTE = 60000000) by reflexivity.
  assert (HS : SECOND = 1000000) by reflexivity.
  assert (HU : MICROSECOND = 1) by reflexivity.
  rewrite HH, HM, HS, HU. intros Hs Hkeys.
  pose proof (Z.mod_pos_bound (now + tz) 3600000000 ltac:(lia)) as Hb.
  pose proof (Z.div_mod (now + tz) 3600000000 ltac:(lia)) as Hd.
  pose proof (Z.div_mod (k + tz) 3600000000 ltac:(lia)) as Hk.
  rewrite Hkeys in Hk.
  set (q := (now + tz) / 3600000000) in *.
  set (m := (now + tz) mod 3600000000) in *.
  set (j := (k + tz) / 3600000000) in *.
  destruct (Z.ltb_spec start' k); destruct (Z.leb_spec k (start' + n * 3600000000));
    destruct (Z.ltb_spec (now - m + 59 * 60000000 + 59 * 1000000 + 999 * 1) k);
    destruct (Z.leb_spec k (now - m + 59 * 60000000 + 59 * 1000000 + 999 * 1
                            + n * 3600000000));
    try reflexivity; exfalso; lia.
Qed.

(** C3: [sum_energy_production] adds up exactly the [wh_hours] values whose
    key lies in [(start, end_]], [start] being the current time with minute 59,
    second 59 and microsecond 999 in the Estimate's zone (same hour as now)
    and [end_] lying [period_hours] hours later.  A key equal to [start] is
    left out, a key equal to [end_] is taken, and the sum is 0 on an empty
    series or when no key falls in the window.  On a series whose keys lie
    on the hour, as those of a built Estimate do, any start from there to the
    end of the current hour gives the same sum. *)
Theorem energy_between_window :
  forall (self : Estimate) (now : instant) (period_hours : Z),
    let tz := timezone self in
    let start := window_start tz now in
    let end_ := start + period_hours * HOUR in
    sum_energy_production self now period_hours
    = sum_values (values (filter (in_window start end_) (wh_hours self))) /\
    ((start + tz) mod HOUR = 59 * MINUTE + 59 * SECOND + 999 /\
     (start + tz) / HOUR = (now + tz) / HOUR) /\
    (forall w wp v,
        sum_energy_production (mkEstimate tz w wp [(start, v)]) now period_hours
        = 0) /\
    (0 < period_hours ->
     forall w wp v,
       sum_energy_production (mkEstimate tz w wp [(end_, v)]) now period_hours
       = v) /\
    (wh_hours self = [] -> sum_energy_production self now period_hours = 0) /\
    ((forall k v, In (k, v) (wh_hours self) -> ~ (start < k <= end_)) ->
     sum_energy_production self now period_hours = 0) /\
    (forall start',
        start <= start' < top_of_hour tz now + HOUR ->
        (forall k v, In (k, v) (wh_hours self) -> on_the_hour tz k) ->
        sum_values
          (values (filter (in_window start' (start' + period_hours * HOUR))
                          (wh_hours self)))
        = sum_energy_production self now period_hours).
Proof.
  intros self now period_hours tz start end_.
  assert (Hsum : forall e : Estimate,
             timezone e = tz ->
             sum_energy_production e now period_hours
             = sum_values (values (filter (in_window start end_) (wh_hours e)))).
  { intros e He. unfold sum_energy_production. rewrite He.
    apply interval_value_sum_window. }
  split; [apply Hsum; reflexivity|].
  split.
  { destruct (window_start_fields tz now) as [H1 [H2 _]]. split; assumption. }
  split.
  { intros w wp v. rewrite Hsum by reflexivity. simpl. unfold in_window.
    simpl. rewrite Z.ltb_irrefl. reflexivity. }
  split.
  { intros Hpos w wp v. rewrite Hsum by reflexivity. simpl. unfold in_window.
    simpl.
    assert (Hlt : start < end_).
    { subst end_. assert (0 < HOUR) by reflexivity. nia. }
    apply Z.ltb_lt in Hlt. rewrite Hlt, Z.leb_refl. simpl. lia. }
  split.
  { intros Hempty. rewrite Hsum by reflexivity. rewrite Hempty. reflexivity. }
  split.
  { intros Hnone. rewrite Hsum by reflexivity.
    apply window_sum_none. exact Hnone. }
  intros start' Hs Hkeys. rewrite Hsum by reflexivity.
  subst start end_. rewrite (window_same_hour_start tz now period_hours start');
    auto.
Qed.

Lemma energy_between_window_witness :
  sum_energy_production
    (mkEstimate utc [] [] [(window_start utc now_sample + 1 * HOUR, 75)])
    now_sample 1 = 75.
Proof.
  destruct (energy_between_window estimate_sample now_sample 1)
    as [_ [_ [_ [Hend _]]]].
  apply (Hend ltac:(lia) [] [] 75).
Defined.

(** C4, as the code has it: the window of [sum_energy_production(0)] is
    empty, so it returns 0 on every Estimate; and an Estimate whose only
    [wh_hours] entry lies at the top of the hour that holds the current time
    gets 0 for every number of hours, as that key lies before the start of
    the window. *)
Theorem energy_between_zero_hours :
  forall (self : Estimate) (now : instant),
    sum_energy_production self now 0 = 0 /\
    forall (w wp : odict Z) (v period_hours : Z),
      sum_energy_production
        (mkEstimate (timezone self) w wp [(top_of_hour (timezone self) now, v)])
        now period_hours = 0.
Proof.
  intros self now. split.
  - unfold sum_energy_production. rewrite interval_value_sum_window.
    unfold timedelta_hours. rewrite Z.mul_0_l, Z.add_0_r.
    induction (wh_hours self) as [|[k v] d IH]; [reflexivity|].
    simpl. unfold in_window at 1. simpl fst.
    destruct (Z.ltb_spec (replace_minute_second_microsecond
                            (timezone self) now 59 59 999) k);
      destruct (Z.leb_spec k (replace_minute_second_microsecond
                                (timezone self) now 59 59 999));
      simpl; try lia; apply IH.
  - intros w wp v period_hours.
    unfold sum_energy_production. rewrite interval_value_sum_window.
    simpl. unfold in_window. simpl fst.
    destruct (window_start_fields (timezone self) now) as [_ [_ [Hlt _]]].
    unfold window_start in Hlt. fold (top_of_hour (timezone self) now).
    destruct (Z.ltb_spec (replace_minute_second_microsecond
                            (timezone self) now 59 59 999)
                         (top_of_hour (timezone self) now)); [lia|].
    reflexivity.
Qed.

(** C4 fails as stated: at 10:20:30.5 the only entry, 75 Wh at 10:00, is
    not in the result of [sum_energy_production(0)], which is 0. *)
Lemma energy_between_zero_excludes_current_hour :
  wh_hours estimate_sample = [(top_of_hour utc now_sample, 75)] /\
  now_sample mod MINUTE <> 0 /\
  sum_energy_production estimate_sample now_sample 0 = 0 /\
  sum_energy_production estimate_sample now_sample 0 <> 75.
Proof.
  split; [reflexivity|]. split; [vm_compute; discriminate|].
  split; [reflexivity|]. vm_compute. discriminate.
Qed.

(** ** The concrete scenario *)

(** C2: the three entries at 10:00, 10:15 and 10:30 UTC with 100, 200 and
    0 W, built in UTC, give [wh_period = {10:00: 25, 10:15: 50, 10:30: 0}]
    (the last one over the default 15 minutes) and [wh_hours = {10:00: 75}],
    for every interpreter that reads the three texts as those times. *)
Theorem build_concrete_scenario :
  forall (fromisoformat : string -> option datetime)
         (int_of_str : string -> option Z) (system_tz : tzinfo),
    fromisoformat "2024-01-01T10:00:00+00:00"%string = Some (Aware t_10_00 utc) ->
    fromisoformat "2024-01-01T10:15:00+00:00"%string = Some (Aware t_10_15 utc) ->
    fromisoformat "2024-01-01T10:30:00+00:00"%string = Some (Aware t_10_30 utc) ->
    exists est,
      from_solar_manager_data fromisoformat int_of_str system_tz
                              scenario_entries utc default_interval_15min
      = Ok est /\
      watts est = [(t_10_00, 100); (t_10_15, 200); (t_10_30, 0)] /\
      wh_period est = [(t_10_00, 25); (t_10_15, 50); (t_10_30, 0)] /\
      wh_hours est = [(t_10_00, 75)].
Proof.
  intros fromisoformat int_of_str system_tz H1 H2 H3.
  unfold from_solar_manager_data.
  replace (sorted_entries scenario_entries) with (Ok scenario_entries)
    by (vm_compute; reflexivity).
  unfold bind at 1. unfold scenario_entries, sample.
  cbn [fill_watts dict_get String.eqb Ascii.eqb Bool.eqb truthy_opt truthy negb
       replace_Z append py_or py_int bind astimezone od_set app].
  rewrite H1, H2, H3. cbn [astimezone bind].
  eexists. split; [vm_compute; reflexivity|].
  repeat split; vm_compute; reflexivity.
Qed.

Lemma build_concrete_scenario_witness :
  exists est,
    build scenario_entries utc = Ok est /\
    wh_period est = [(t_10_00, 25); (t_10_15, 50); (t_10_30, 0)] /\
    wh_hours est = [(t_10_00, 75)].
Proof.
  destruct (build_concrete_scenario iso_parse dec_int utc
              eq_refl eq_refl eq_refl) as [est [Hb [_ [Hp Hh]]]].
  exists est. split; [exact Hb|]. split; assumption.
Defined.

(** ** The client *)

Section Client.

Variable fromisoformat : string -> option datetime.
Variable int_of_str : string -> option Z.
Variable system_tz : tzinfo.


End Client.


(** ** Ordered mappings *)

Lemma keys_od_set :
  forall (V : Type) (k : instant) (v : V) (d : odict V),
    keys (od_set k v d) = add_key (keys d) k.
Proof.
  intros V k v d. unfold add_key, keys. induction d as [|[k' v'] d IH].
  - reflexivity.
  - simpl. destruct (k =? k') eqn:E; simpl.
    + reflexivity.
    + rewrite IH.
      destruct (existsb (Z.eqb k) (map fst d)); reflexivity.
Qed.

Lemma existsb_eqb_in :
  forall (k : instant) (ks : list instant),
    existsb (Z.eqb k) ks = true <-> In k ks.
Proof.
  intros k ks. rewrite existsb_exists. split.
  - intros [x [Hin Hx]]. apply Z.eqb_eq in Hx. subst. exact Hin.
  - intros Hin. exists k. split; [exact Hin|apply Z.eqb_refl].
Qed.

Lemma in_add_key :
  forall ks k x, In x (add_key ks k) <-> In x ks \/ x = k.
Proof.
  intros ks k x. unfold add_key.
  destruct (existsb (Z.eqb k) ks) eqn:E.
  - apply existsb_eqb_in in E. split; [auto|]. intros [H| ->]; assumption.
  - rewrite in_app_iff. simpl. intuition.
Qed.

Lemma NoDup_add_key :
  forall ks k, NoDup ks -> NoDup (add_key ks k).
Proof.
  intros ks k Hnd. unfold add_key.
  destruct (existsb (Z.eqb k) ks) eqn:E; [exact Hnd|].
  apply NoDup_app; [exact Hnd|repeat constructor; auto|].
  intros x Hx [<-|[]].
  apply existsb_eqb_in in Hx. congruence.
Qed.

Lemma increasing_snoc :
  forall ks k,
    increasing ks -> (forall x, In x ks -> x < k) -> increasing (ks ++ [k]).
Proof.
  intros ks k Hs. induction Hs as [|a l Hs IH Hall]; intros Hlt.
  - simpl. repeat constructor.
  - simpl. constructor.
    + apply IH. intros x Hx. apply Hlt. right. exact Hx.
    + rewrite Forall_forall in *. intros x Hx. apply in_app_iff in Hx.
      destruct Hx as [Hx|[<-|[]]]; [auto|]. apply Hlt. left. reflexivity.
Qed.

Lemma increasing_add_key :
  forall ks k,
    increasing ks -> (forall x, In x ks -> x <= k) -> increasing (add_key ks k).
Proof.
  intros ks k Hs Hle. unfold add_key.
  destruct (existsb (Z.eqb k) ks) eqn:E; [exact Hs|].
  apply increasing_snoc; [exact Hs|].
  intros x Hx. specialize (Hle x Hx).
  assert (x <> k).
  { intros ->. apply existsb_eqb_in in Hx. congruence. }
  lia.
Qed.

Lemma increasing_NoDup : forall ks, increasing ks -> NoDup ks.
Proof.
  intros ks Hs. induction Hs as [|a l Hs IH Hall].
  - constructor.
  - constructor; [|exact IH]. rewrite Forall_forall in Hall.
    intros Hin. apply Hall in Hin. lia.
Qed.

Lemma od_get_none_iff :
  forall (V : Type) (k : instant) (d : odict V),
    od_get k d = None <-> ~ In k (keys d).
Proof.
  intros V k d. induction d as [|[k' v'] d IH].
  - simpl. intuition.
  - simpl. destruct (Z.eqb_spec k k') as [->|Hne].
    + split; [discriminate|]. intros H. exfalso. apply H. left. reflexivity.
    + rewrite IH. unfold keys. intuition.
Qed.

(** Keys after a run of assignments. *)
Lemma fold_add_key_in :
  forall ts ks x,
    In x (fold_left add_key ts ks) <-> In x ks \/ In x ts.
Proof.
  induction ts as [|t ts IH]; intros ks x.
  - simpl. intuition.
  - simpl. rewrite IH, in_add_key. intuition.
Qed.

Lemma fold_add_key_NoDup :
  forall ts ks, NoDup ks -> NoDup (fold_left add_key ts ks).
Proof.
  induction ts as [|t ts IH]; intros ks Hnd.
  - exact Hnd.
  - simpl. apply IH. apply NoDup_add_key. exact Hnd.
Qed.

Lemma fold_add_key_increasing :
  forall ts ks,
    nondecreasing ts -> increasing ks ->
    (forall k t, In k ks -> In t ts -> k <= t) ->
    increasing (fold_left add_key ts ks).
Proof.
  induction ts as [|t ts IH]; intros ks Hts Hks Hle.
  - exact Hks.
  - simpl. apply StronglySorted_inv in Hts. destruct Hts as [Hts Hall].
    rewrite Forall_forall in Hall.
    apply IH.
    + exact Hts.
    + apply increasing_add_key; [exact Hks|].
      intros x Hx. apply Hle; [exact Hx|left; reflexivity].
    + intros k t' Hk Ht'. apply in_add_key in Hk. destruct Hk as [Hk| ->].
      * apply Hle; [exact Hk|right; exact Ht'].
      * apply Hall. exact Ht'.
Qed.

(** ** Sorting *)

Section SortFacts.

Context {A : Type}.
Variable le : A -> A -> bool.
Hypothesis le_total : forall a b, le a b = true \/ le b a = true.
Hypothesis le_trans :
  forall a b c, le a b = true -> le b c = true -> le a c = true.

Lemma insert_sorted_perm :
  forall x l, Permutation (insert_sorted le x l) (x :: l).
Proof.
  intros x l. induction l as [|y l IH]; simpl.
  - apply Permutation_refl.
  - destruct (le x y).
    + apply Permutation_refl.
    + eapply perm_trans; [apply perm_skip; exact IH|apply perm_swap].
Qed.

Lemma stable_sort_perm : forall l, Permutation (stable_sort le l) l.
Proof.
  induction l as [|x l IH]; simpl.
  - constructor.
  - eapply perm_trans; [apply insert_sorted_perm|].
    apply perm_skip. exact IH.
Qed.

Lemma insert_sorted_sorted :
  forall x l,
    StronglySorted (fun a b => le a b = true) l ->
    StronglySorted (fun a b => le a b = true) (insert_sorted le x l).
Proof.
  intros x l Hs. induction Hs as [|y l Hs IH Hall]; simpl.
  - repeat constructor.
  - destruct (le x y) eqn:E.
    + constructor; [constructor; assumption|].
      constructor; [exact E|].
      rewrite Forall_forall in *. intros z Hz. eapply le_trans; eauto.
    + constructor; [exact IH|].
      rewrite Forall_forall in *. intros z Hz.
      apply (Permutation_in _ (insert_sorted_perm x l)) in Hz.
      destruct Hz as [<-|Hz]; [|auto].
      destruct (le_total x y); congruence.
Qed.

Lemma stable_sort_sorted :
  forall l, StronglySorted (fun a b => le a b = true) (stable_sort le l).
Proof.
  induction l as [|x l IH]; simpl.
  - constructor.
  - apply insert_sorted_sorted. exact IH.
Qed.

End SortFacts.

(** The order of strings is transitive. *)
Lemma string_compare_trans_le :
  forall a b c : string,
    String.compare a b <> Gt -> String.compare b c <> Gt ->
    String.compare a c <> Gt.
Proof.
  induction a as [|x a IH]; intros [|y b] [|z c]; simpl; try congruence.
  unfold Ascii.compare.
  destruct (N.compare_spec (N_of_ascii x) (N_of_ascii y)) as [Exy|Lxy|Gxy];
    destruct (N.compare_spec (N_of_ascii y) (N_of_ascii z)) as [Eyz|Lyz|Gyz];
    destruct (N.compare_spec (N_of_ascii x) (N_of_ascii z)) as [Exz|Lxz|Gxz];
    try congruence; try lia.
  apply IH.
Qed.

Lemma string_leb_trans :
  forall a b c : string,
    String.leb a b = true -> String.leb b c = true -> String.leb a c = true.
Proof.
  intros a b c Hab Hbc. unfold String.leb in *.
  pose proof (string_compare_trans_le a b c) as H.
  destruct (String.compare a b); try discriminate;
    destruct (String.compare b c); try discriminate;
      destruct (String.compare a c); try reflexivity;
        exfalso; apply H; congruence.
Qed.

Lemma str_key_le_total :
  forall a b, str_key_le a b = true \/ str_key_le b a = true.
Proof. intros a b. apply String.leb_total. Qed.

Lemma str_key_le_trans :
  forall a b c,
    str_key_le a b = true -> str_key_le b c = true -> str_key_le a c = true.
Proof. intros a b c. apply string_leb_trans. Qed.

Lemma sorted_entries_ok :
  forall entries l,
    sorted_entries entries = Ok l ->
    Permutation l (filter (has_key "t") entries) /\
    ((List.length l <= 1)%nat \/
     StronglySorted (fun a b => str_key_le a b = true) l \/
     Forall (fun e => is_num (key_t e) = true) l).
Proof.
  intros entries l H. unfold sorted_entries in H.
  set (with_t := filter (has_key "t") entries) in *.
  destruct (Z.leb_spec (Z.of_nat (List.length with_t)) 1) as [Hlen|Hlen].
  { inversion H; subst. split; [apply Permutation_refl|]. left. lia. }
  destruct (forallb (fun e => is_str (key_t e)) with_t) eqn:Hstr.
  { inversion H; subst. split; [apply stable_sort_perm|]. right. left.
    apply stable_sort_sorted;
      [apply str_key_le_total|apply str_key_le_trans]. }
  destruct (forallb (fun e => is_num (key_t e)) with_t) eqn:Hnum;
    [|discriminate].
  inversion H; subst. split; [apply stable_sort_perm|]. right. right.
  rewrite forallb_forall in Hnum. rewrite Forall_forall.
  intros e He. apply Hnum.
  apply (Permutation_in _ (stable_sort_perm num_key_le with_t)). exact He.
Qed.

(** ** The two loops of the construction *)

Section Loops.

Variable fromisoformat : string -> option datetime.
Variable int_of_str : string -> option Z.
Variable system_tz : tzinfo.
Variable tz : tzinfo.

Abbreviation stamp := (stamp fromisoformat system_tz tz).
Abbreviation stamps := (stamps fromisoformat system_tz tz).
Abbreviation readable := (readable fromisoformat int_of_str).
Abbreviation fill_watts := (fill_watts fromisoformat int_of_str system_tz tz).

Lemma stamps_cons :
  forall e l,
    stamps (e :: l)
    = match stamp e with Some t => [t] | None => [] end ++ stamps l.
Proof. reflexivity. Qed.

(** A first loop that ends has stored the stamps of its entries, in their
    order, and no filtered sample is without one. *)
Lemma fill_watts_ok :
  forall l ts (w : odict Z) ts' w',
    fill_watts l ts w = Ok (ts', w') ->
    ts' = ts ++ stamps l /\
    keys w' = fold_left add_key (stamps l) (keys w) /\
    List.length (stamps l) = List.length (filter kept l).
Proof.
  induction l as [|e l IH]; intros ts w ts' w' H.
  - simpl in H. inversion H; subst. rewrite app_nil_r. auto.
  - rewrite stamps_cons. simpl in H. unfold stamp, kept. simpl filter.
    destruct (dict_get "t" e) as [[|b|n|q|s]|]; simpl in H; simpl.
    + apply IH in H. exact H.
    + destruct b; simpl in H; [discriminate|]. apply IH in H. exact H.
    + destruct (n =? 0); simpl in H; [|discriminate]. apply IH in H. exact H.
    + destruct (Qnum q =? 0); simpl in H; [|discriminate].
      apply IH in H. exact H.
    + destruct (String.eqb s EmptyString); simpl in H.
      * apply IH in H. exact H.
      * destruct (fromisoformat (replace_Z s)) as [d|]; [|discriminate].
        destruct (py_int int_of_str (py_or (dict_get "pW" e) (JInt 0)))
          as [p|x]; simpl in H; [|discriminate].
        apply IH in H. destruct H as [Hts [Hk Hlen]].
        rewrite keys_od_set in Hk. rewrite <- app_assoc in Hts.
        simpl. auto.
    + apply IH in H. exact H.
Qed.

(** On readable entries the first loop ends. *)
Lemma fill_watts_total :
  forall l ts (w : odict Z),
    Forall (fun e => readable e = true) l ->
    exists ts' w', fill_watts l ts w = Ok (ts', w').
Proof.
  induction l as [|e l IH]; intros ts w Hall.
  - simpl. eauto.
  - inversion Hall as [|e' l' He Hl]; subst. simpl. unfold readable in He.
    destruct (dict_get "t" e) as [[|b|n|q|s]|]; try discriminate.
    simpl. destruct (String.eqb s EmptyString); simpl in *; [discriminate|].
    destruct (fromisoformat (replace_Z s)) as [d|]; [|discriminate].
    destruct (py_int int_of_str (py_or (dict_get "pW" e) (JInt 0)))
      as [p|x]; [|discriminate].
    simpl. apply IH. exact Hl.
Qed.

(** The second loop ends when every timestamp is a key of [watts]. *)
Lemma fill_energy_total :
  forall default_interval (w : odict Z) todo wp acc,
    (forall t, In t todo -> In t (keys w)) ->
    exists r, fill_energy tz default_interval w todo wp acc = Ok r.
Proof.
  intros default_interval w todo.
  induction todo as [|t todo IH]; intros wp acc Hin.
  - simpl. eauto.
  - simpl. destruct (od_get t w) as [p|] eqn:Hget.
    + destruct (Qle_bool _ 0); apply IH; intros; apply Hin; right; assumption.
    + exfalso. apply od_get_none_iff in Hget. apply Hget. apply Hin.
      left. reflexivity.
Qed.

End Loops.

(** ** Rounding and sums *)

Lemma py_round_near :
  forall x : Q,
    (inject_Z (py_round x) - x <= 1 # 2)%Q /\
    (x - inject_Z (py_round x) <= 1 # 2)%Q.
Proof.
  intros x. unfold py_round.
  pose proof (Qfloor_le x) as Hlo.
  pose proof (Qlt_floor x) as Hhi.
  rewrite inject_Z_plus in Hhi. change (inject_Z 1) with 1%Q in Hhi.
  destruct (Qcompare_spec (x - inject_Z (Qfloor x)) (1 # 2)) as [E|L|G].
  - destruct (Z.even (Qfloor x));
      [|rewrite inject_Z_plus; change (inject_Z 1) with 1%Q]; split; lra.
  - split; lra.
  - rewrite inject_Z_plus. change (inject_Z 1) with 1%Q. split; lra.
Qed.

Lemma sum_round_near :
  forall l : list Q,
    (inject_Z (sum_values (map py_round l)) - Qsum l
     <= inject_Z (Z.of_nat (List.length l)) * (1 # 2))%Q /\
    (Qsum l - inject_Z (sum_values (map py_round l))
     <= inject_Z (Z.of_nat (List.length l)) * (1 # 2))%Q.
Proof.
  induction l as [|x l [IH1 IH2]].
  - split; unfold Qle; simpl; lia.
  - change (sum_values (map py_round (x :: l)))
      with (py_round x + sum_values (map py_round l)).
    change (Qsum (x :: l)) with (x + Qsum l)%Q.
    change (List.length (x :: l)) with (S (List.length l)).
    rewrite Nat2Z.inj_succ. unfold Z.succ.
    rewrite !inject_Z_plus.
    destruct (py_round_near x) as [H1 H2].
    change (inject_Z 1) with 1%Q. split; lra.
Qed.

Lemma delta_hours_nonpositive :
  forall d : Z,
    Qle_bool (inject_Z d / inject_Z HOUR) 0 = true <-> d <= 0.
Proof.
  intros d. rewrite Qle_bool_iff.
  change (inject_Z HOUR) with (3600000000 # 1)%Q.
  unfold Qle, Qdiv, Qmult, Qinv, inject_Z. simpl. lia.
Qed.

Lemma Qsum_acc_add :
  forall (k : instant) (wh : Q) (acc : odict Q),
    (Qsum (values (acc_add k wh acc)) == Qsum (values acc) + wh)%Q /\
    (List.length (acc_add k wh acc) <= S (List.length acc))%nat.
Proof.
  intros k wh acc. unfold acc_add.
  induction acc as [|[k' v'] acc [IH1 IH2]].
  - cbn [od_get od_set values map fst snd Qsum fold_right List.length].
    split; [lra|lia].
  - cbn [od_get od_set]. destruct (k =? k') eqn:E.
    + cbn [od_get od_set values map fst snd Qsum fold_right List.length].
      split; [lra|lia].
    + cbn [od_get od_set values map fst snd Qsum fold_right List.length].
      split; [|lia].
      unfold values, Qsum in IH1. rewrite IH1. lra.
Qed.

Lemma od_set_fresh :
  forall (V : Type) (k : instant) (v : V) (d : odict V),
    ~ In k (keys d) -> od_set k v d = d ++ [(k, v)].
Proof.
  intros V k v d. induction d as [|[k' v'] d IH]; intros Hfresh.
  - reflexivity.
  - simpl in *. destruct (Z.eqb_spec k k') as [->|Hne].
    + exfalso. apply Hfresh. left. reflexivity.
    + rewrite IH; [reflexivity|]. intros Hin. apply Hfresh. right. exact Hin.
Qed.

(** The second loop on timestamps in time order: every period it emits gets
    a fresh key, later than all before; the hour accumulator receives the
    same exact energies. *)
Lemma fill_energy_sorted :
  forall tz default_interval (w : odict Z) todo wp acc wp' acc',
    nondecreasing todo ->
    increasing (keys wp) ->
    (forall k t, In k (keys wp) -> In t todo -> k < t) ->
    fill_energy tz default_interval w todo wp acc = Ok (wp', acc') ->
    increasing (keys wp') /\
    exists whs,
      values wp' = values wp ++ map py_round whs /\
      (Qsum (values acc') == Qsum (values acc) + Qsum whs)%Q /\
      (List.length acc' <= List.length acc + List.length whs)%nat.
Proof.
  intros tz di w todo.
  induction todo as [|t todo IH]; intros wp acc wp' acc' Hnd Hinc Hlt H.
  - cbn [fill_energy] in H. inversion H; subst. split; [exact Hinc|].
    exists []. cbn [map Qsum fold_right List.length]. rewrite app_nil_r.
    split; [reflexivity|]. split; [lra|lia].
  - cbn [fill_energy] in H. destruct (od_get t w) as [p|]; [|discriminate].
    apply StronglySorted_inv in Hnd. destruct Hnd as [Hnd Hall].
    rewrite Forall_forall in Hall.
    set (t_end := match todo with
                  | t_next :: _ => t_next
                  | [] => t + di
                  end) in *.
    assert (Hnext : forall t', In t' todo -> t_end <= t').
    { intros t' Ht'. subst t_end. destruct todo as [|t1 todo1]; [contradiction|].
      destruct Ht' as [<-|Ht']; [lia|].
      apply StronglySorted_inv in Hnd. destruct Hnd as [_ Hall1].
      rewrite Forall_forall in Hall1. apply Hall1. exact Ht'. }
    destruct (Qle_bool (inject_Z (t_end - t) / inject_Z HOUR) 0) eqn:E.
    + apply (IH wp acc wp' acc' Hnd Hinc); [|exact H].
      intros k t' Hk Ht'. apply Hlt; [exact Hk|right; exact Ht'].
    + assert (Hpos : t < t_end).
      { destruct (Z.le_gt_cases (t_end - t) 0) as [Hle|Hgt]; [|lia].
        apply delta_hours_nonpositive in Hle. congruence. }
      assert (Hfresh : ~ In t (keys wp)).
      { intros Hin. specialize (Hlt t t Hin (or_introl eq_refl)). lia. }
      apply IH in H.
      * destruct H as [Hinc' [whs [Hv [Hs Hl]]]]. split; [exact Hinc'|].
        exists ((inject_Z p * (inject_Z (t_end - t) / inject_Z HOUR))%Q :: whs).
        rewrite od_set_fresh in Hv by exact Hfresh.
        unfold values in *. rewrite map_app in Hv. rewrite Hv.
        cbn [map Qsum fold_right List.length snd]. rewrite <- app_assoc.
        split; [reflexivity|].
        match type of Hs with
        | (_ == Qsum (map snd (acc_add ?k ?x acc)) + _)%Q =>
            destruct (Qsum_acc_add k x acc) as [Ha Hb]
        end.
        unfold values in Ha. unfold Qsum in *. rewrite Hs, Ha.
        split; [lra|lia].
      * exact Hnd.
      * rewrite keys_od_set. apply increasing_add_key; [exact Hinc|].
        intros x Hx. specialize (Hlt x t Hx (or_introl eq_refl)). lia.
      * intros k t' Hk Ht'. rewrite keys_od_set in Hk.
        apply in_add_key in Hk. specialize (Hnext t' Ht').
        destruct Hk as [Hk| ->]; [|lia].
        specialize (Hlt k t' Hk (or_intror Ht')). exact Hlt.
Qed.

(** ** The construction as a whole *)

Section Construction.

Variable fromisoformat : string -> option datetime.
Variable int_of_str : string -> option Z.
Variable system_tz : tzinfo.
Variable tz : tzinfo.

Abbreviation stamp := (stamp fromisoformat system_tz tz).
Abbreviation stamps := (stamps fromisoformat system_tz tz).
Abbreviation readable := (readable fromisoformat int_of_str).
Abbreviation fill_watts := (fill_watts fromisoformat int_of_str system_tz tz).
Abbreviation from_solar_manager_data :=
  (from_solar_manager_data fromisoformat int_of_str system_tz).
Abbreviation text_order_is_time_order :=
  (text_order_is_time_order fromisoformat system_tz tz).

Lemma in_stamps :
  forall l t, In t (stamps l) <-> exists e, In e l /\ stamp e = Some t.
Proof.
  intros l t. unfold stamps. rewrite in_flat_map. split.
  - intros [e [He Ht]]. exists e. split; [exact He|].
    destruct (stamp e) as [t'|]; [|contradiction].
    destruct Ht as [->|[]]. reflexivity.
  - intros [e [He Ht]]. exists e. split; [exact He|].
    rewrite Ht. left. reflexivity.
Qed.

Lemma stamps_perm :
  forall l l', Permutation l l' -> Permutation (stamps l) (stamps l').
Proof.
  intros l l' H. unfold stamps. apply Permutation_flat_map. exact H.
Qed.

Lemma stamp_needs_key :
  forall e, has_key "t" e = false -> stamp e = None.
Proof.
  intros e H. unfold has_key in H. unfold stamp.
  destruct (dict_get "t" e); [discriminate|reflexivity].
Qed.

Lemma kept_needs_key :
  forall e, has_key "t" e = false -> kept e = false.
Proof.
  intros e H. unfold has_key in H. unfold kept.
  destruct (dict_get "t" e); [discriminate|reflexivity].
Qed.

Lemma stamps_filter_has_key :
  forall l, stamps (filter (has_key "t") l) = stamps l.
Proof.
  induction l as [|e l IH]; [reflexivity|].
  simpl filter. destruct (has_key "t" e) eqn:E.
  - rewrite !stamps_cons, IH. reflexivity.
  - rewrite stamps_cons, IH, (stamp_needs_key e E). reflexivity.
Qed.

Lemma kept_filter_has_key :
  forall l, filter kept (filter (has_key "t") l) = filter kept l.
Proof.
  induction l as [|e l IH]; [reflexivity|].
  simpl filter. destruct (has_key "t" e) eqn:E.
  - simpl filter. rewrite IH. reflexivity.
  - rewrite IH, (kept_needs_key e E). reflexivity.
Qed.

Lemma filter_perm_length :
  forall (f : entry -> bool) l l',
    Permutation l l' ->
    List.length (filter f l) = List.length (filter f l').
Proof.
  intros f l l' H. induction H; simpl.
  - reflexivity.
  - destruct (f x); simpl; congruence.
  - destruct (f x), (f y); reflexivity.
  - congruence.
Qed.

Lemma stamps_numeric_keys :
  forall l, Forall (fun e => is_num (key_t e) = true) l -> stamps l = [].
Proof.
  intros l H. induction H as [|e l He Hl IH]; [reflexivity|].
  rewrite stamps_cons, IH. unfold stamp.
  unfold key_t in He.
  destruct (dict_get "t" e) as [[|b|n|q|s]|]; try reflexivity; discriminate.
Qed.

Lemma stamps_short :
  forall l, (List.length l <= 1)%nat -> nondecreasing (stamps l).
Proof.
  intros [|e [|e' l]] H; simpl in H; try lia.
  - constructor.
  - rewrite stamps_cons. destruct (stamp e); simpl; repeat constructor.
Qed.

Lemma stamps_text_sorted :
  forall l,
    StronglySorted (fun a b => str_key_le a b = true) l ->
    text_order_is_time_order l ->
    nondecreasing (stamps l).
Proof.
  intros l Hs. induction Hs as [|e l Hs IH Hall]; intros Hord.
  - constructor.
  - assert (Htail : nondecreasing (stamps l)).
    { apply IH. intros a b ta tb Ha Hb. apply Hord; right; assumption. }
    rewrite stamps_cons. destruct (stamp e) as [te|] eqn:Ee; [|exact Htail].
    simpl. constructor; [exact Htail|].
    rewrite Forall_forall in *. intros t Ht.
    apply in_stamps in Ht. destruct Ht as [b [Hb Hsb]].
    apply (Hord e b te t); auto.
    + left. reflexivity.
    + right. exact Hb.
Qed.

(** Timestamps come out of the sort in time order when text order is time
    order. *)
Lemma sorted_stamps_nondecreasing :
  forall entries l,
    sorted_entries entries = Ok l ->
    text_order_is_time_order entries ->
    nondecreasing (stamps l).
Proof.
  intros entries l Hsort Hord.
  destruct (sorted_entries_ok entries l Hsort) as [Hperm [Hlen|[Hs|Hnum]]].
  - apply stamps_short. exact Hlen.
  - apply stamps_text_sorted; [exact Hs|].
    assert (Hsub : forall a, In a l -> In a entries).
    { intros a Ha. apply (Permutation_in _ Hperm) in Ha.
      apply filter_In in Ha. tauto. }
    intros a b ta tb Ha Hb. apply Hord; auto.
  - rewrite (stamps_numeric_keys l Hnum). constructor.
Qed.

(** What a construction that ends went through. *)
Lemma build_ok_parts :
  forall entries default_interval est,
    from_solar_manager_data entries tz default_interval = Ok est ->
    exists l acc,
      sorted_entries entries = Ok l /\
      fill_watts l [] [] = Ok (stamps l, watts est) /\
      fill_energy tz default_interval (watts est) (stamps l) [] []
      = Ok (wh_period est, acc) /\
      wh_hours est = map (fun kv => (fst kv, py_round (snd kv))) acc /\
      timezone est = tz.
Proof.
  intros entries di est H. unfold from_solar_manager_data in H.
  destruct (sorted_entries entries) as [l|x]; [|discriminate].
  cbn [bind] in H.
  destruct (fill_watts l [] []) as [[ts w]|x] eqn:Hw; [|discriminate].
  cbn [bind fst snd] in H.
  destruct (fill_energy tz di w ts [] []) as [[wp acc]|x] eqn:He;
    [|discriminate].
  cbn [bind fst snd] in H. inversion H; subst. cbn [watts wh_period wh_hours timezone].
  destruct (fill_watts_ok _ _ _ _ _ _ _ _ _ Hw) as [Hts _]. simpl in Hts.
  subst ts. exists l, acc. auto.
Qed.

End Construction.

(** ** Hour buckets lie on the hour *)

Lemma top_of_hour_on_the_hour :
  forall tz t, on_the_hour tz (replace_minute_second_microsecond tz t 0 0 0).
Proof.
  intros tz t. unfold on_the_hour, replace_minute_second_microsecond.
  assert (HH : HOUR = 3600000000) by reflexivity. rewrite HH.
  pose proof (Z.div_mod (t + tz) 3600000000 ltac:(lia)) as Hd.
  set (q := (t + tz) / 3600000000) in *.
  set (m := (t + tz) mod 3600000000) in *.
  symmetry. apply (Z.mod_unique _ _ q); lia.
Qed.

Lemma fill_energy_hour_keys :
  forall tz default_interval (w : odict Z) todo wp acc wp' acc',
    (forall k, In k (keys acc) -> on_the_hour tz k) ->
    fill_energy tz default_interval w todo wp acc = Ok (wp', acc') ->
    forall k, In k (keys acc') -> on_the_hour tz k.
Proof.
  intros tz di w todo.
  induction todo as [|t todo IH]; intros wp acc wp' acc' Hacc H.
  - cbn [fill_energy] in H. inversion H; subst. exact Hacc.
  - cbn [fill_energy] in H. destruct (od_get t w) as [p|]; [|discriminate].
    destruct (Qle_bool _ 0).
    + eapply IH; eauto.
    + eapply IH; [|exact H]. intros k Hk. unfold acc_add in Hk.
      rewrite keys_od_set in Hk. apply in_add_key in Hk.
      destruct Hk as [Hk| ->]; [auto|apply top_of_hour_on_the_hour].
Qed.

(** Every key of [wh_hours] in a built Estimate is on the hour of its
    zone. *)
Lemma built_hours_on_the_hour :
  forall (fromisoformat : string -> option datetime)
         (int_of_str : string -> option Z) (system_tz : tzinfo)
         (entries : list entry) (tz : tzinfo) (default_interval : timedelta)
         (est : Estimate),
    from_solar_manager_data fromisoformat int_of_str system_tz
                            entries tz default_interval = Ok est ->
    forall k v, In (k, v) (wh_hours est) -> on_the_hour (timezone est) k.
Proof.
  intros fromisoformat int_of_str system_tz entries tz di est Hb k v Hin.
  destruct (build_ok_parts _ _ _ _ _ _ _ Hb)
    as [l [acc [Hsort [Hw [He [Hh Htz]]]]]].
  rewrite Htz.
  assert (Hnil : forall k0,
             In k0 (keys (@nil (instant * Q))) -> on_the_hour tz k0)
    by (intros k0 []).
  apply (fill_energy_hour_keys _ _ _ _ _ _ _ _ Hnil He).
  rewrite Hh in Hin. apply in_map_iff in Hin.
  destruct Hin as [[k' x] [E Hin]]. simpl in E. inversion E; subst.
  apply (in_map fst) in Hin. exact Hin.
Qed.

(** ** Invariants of the built Estimate *)

Lemma stamp_kept :
  forall fromisoformat system_tz tz e t,
    stamp fromisoformat system_tz tz e = Some t -> kept e = true.
Proof.
  intros fromisoformat system_tz tz e t H. unfold stamp in H. unfold kept.
  destruct (dict_get "t" e) as [[|b|n|q|s]|]; try discriminate.
  simpl. destruct (String.eqb s EmptyString); [discriminate|reflexivity].
Qed.

Lemma fold_add_key_length :
  forall ts, NoDup ts ->
    List.length (fold_left add_key ts []) = List.length ts.
Proof.
  intros ts Hnd. apply Permutation_length.
  apply NoDup_Permutation.
  - apply fold_add_key_NoDup. constructor.
  - exact Hnd.
  - intros x. rewrite fold_add_key_in. simpl. tauto.
Qed.


Lemma scenario_builds : build scenario_entries utc = Ok estimate_sample.
Proof. vm_compute. reflexivity. Qed.

Lemma scenario_text_order :
  text_order_is_time_order iso_parse utc utc scenario_entries.
Proof.
  intros a b ta tb Ha Hb Hsa Hsb Hle.
  simpl in Ha, Hb.
  destruct Ha as [<-|[<-|[<-|[]]]]; destruct Hb as [<-|[<-|[<-|[]]]];
    vm_compute in Hsa; vm_compute in Hsb; vm_compute in Hle;
    inversion Hsa; inversion Hsb; subst; try discriminate; lia.
Qed.



(** The sort compares the [t] texts, not the times: with offsets that
    differ, the stored order is not the order in time. *)
Lemma mixed_offsets_break_time_order :
  exists est,
    build mixed_offset_entries utc = Ok est /\
    keys (watts est)
    = [t_10_00; t_10_30; at_utc_time 2024 1 1 5 45 0] /\
    keys (wh_period est) = [t_10_00; at_utc_time 2024 1 1 5 45 0] /\
    ~ increasing (keys (watts est)) /\
    ~ increasing (keys (wh_period est)).
Proof.
  eexists. split; [vm_compute; reflexivity|].
  split; [reflexivity|]. split; [reflexivity|].
  split; intros H; simpl in H.
  - apply StronglySorted_inv in H. destruct H as [_ H].
    inversion H as [|? ? _ H']. inversion H' as [|? ? Hlt _].
    vm_compute in Hlt. discriminate.
  - apply StronglySorted_inv in H. destruct H as [_ H].
    inversion H as [|? ? Hlt _]. vm_compute in Hlt. discriminate.
Qed.

(** ** Construction on readable and on unreadable entries *)

Lemma readable_has_text_key :
  forall fromisoformat int_of_str e,
    readable fromisoformat int_of_str e = true ->
    is_str (key_t e) = true /\ kept e = true.
Proof.
  intros fromisoformat int_of_str e H. unfold readable in H.
  unfold key_t, kept.
  destruct (dict_get "t" e) as [[|b|n|q|s]|]; try discriminate.
  simpl. split; [reflexivity|].
  destruct (String.eqb s EmptyString); [discriminate|reflexivity].
Qed.

Lemma sorted_entries_text_keys :
  forall entries,
    (forall e, In e entries -> has_key "t" e = true ->
               is_str (key_t e) = true) ->
    exists l, sorted_entries entries = Ok l.
Proof.
  intros entries H. unfold sorted_entries.
  destruct (Z.of_nat (List.length (filter (has_key "t") entries)) <=? 1);
    [eauto|].
  assert (Hall : forallb (fun e => is_str (key_t e))
                         (filter (has_key "t") entries) = true).
  { apply forallb_forall. intros e He. apply filter_In in He.
    destruct He as [Hin Hk]. apply H; assumption. }
  rewrite Hall. eauto.
Qed.

Lemma filter_all :
  forall (f : entry -> bool) l,
    Forall (fun e => f e = true) l -> filter f l = l.
Proof.
  intros f l H. induction H as [|e l He Hl IH]; [reflexivity|].
  simpl. rewrite He, IH. reflexivity.
Qed.


Lemma ten_entries_readable :
  forall e, In e ten_entries -> has_key "t" e = true ->
            readable iso_parse dec_int e = true.
Proof.
  intros e Hin Hk. simpl in Hin.
  repeat (destruct Hin as [<-|Hin];
          [first [reflexivity | vm_compute in Hk; discriminate]|]).
  contradiction.
Qed.

Lemma ten_entries_distinct : NoDup (stamps iso_parse utc utc ten_entries).
Proof.
  replace (stamps iso_parse utc utc ten_entries)
    with [1704103200000000; 1704104100000000; 1704105000000000;
          1704105900000000; 1704106800000000; 1704107700000000;
          1704108600000000]
    by (vm_compute; reflexivity).
  repeat (constructor; [simpl; intuition discriminate|]). constructor.
Qed.



(** ** Period energies against hour energies *)

Lemma values_round :
  forall acc : odict Q,
    values (map (fun kv => (fst kv, py_round (snd kv))) acc)
    = map py_round (values acc).
Proof.
  intros acc. unfold values. rewrite !map_map. reflexivity.
Qed.

Lemma rounded_sums_close :
  forall (whs accv : list Q),
    (Qsum accv == Qsum whs)%Q ->
    2 * Z.abs (sum_values (map py_round whs) - sum_values (map py_round accv))
    <= Z.of_nat (List.length whs) + Z.of_nat (List.length accv).
Proof.
  intros whs accv Heq.
  destruct (sum_round_near whs) as [H1 H2].
  destruct (sum_round_near accv) as [H3 H4].
  set (A := sum_values (map py_round whs)) in *.
  set (B := sum_values (map py_round accv)) in *.
  set (n := Z.of_nat (List.length whs)) in *.
  set (h := Z.of_nat (List.length accv)) in *.
  assert (Hab : 2 * A <= 2 * B + (n + h)).
  { rewrite Zle_Qle. rewrite !inject_Z_plus, !inject_Z_mult.
    change (inject_Z 2) with 2%Q. lra. }
  assert (Hba : 2 * B <= 2 * A + (n + h)).
  { rewrite Zle_Qle. rewrite !inject_Z_plus, !inject_Z_mult.
    change (inject_Z 2) with 2%Q. lra. }
  lia.
Qed.



(** At the sample inputs the floating-point energies are the exact ones:
    25, 50 and 0 Wh adding up to 75 Wh in the scenario, and 1.5 Wh three
    times adding up to 4.5 Wh for three quarter hours at 6 W. *)
Lemma sample_energies_exact_in_binary64 :
  (wh_binary64 100 900 = 25 /\ wh_binary64 200 900 = 50 /\
   wh_binary64 0 900 = 0 /\ 0 + 25 + 50 + 0 = 75)%float /\
  (wh_binary64 6 900 = 1.5 /\ 0 + 1.5 + 1.5 + 1.5 = 4.5)%float.
Proof.
  repeat split; vm_compute; reflexivity.
Qed.


(** ** A falsy [t] *)

(** C10: an entry whose [t] is present but falsy is to be discarded like
    one without [t], without an error.  The code does so for the empty
    text; for a null [t] beside a sample with a text [t] it does not reach
    the guard of the first loop: the sort compares [None] with a string and
    raises [TypeError], while the same payload without that [t] field
    builds an Estimate. *)
Theorem null_t_raises_in_sort :
  has_key "t" (hd [] null_t_entries) = true /\
  truthy_opt (dict_get "t" (hd [] null_t_entries)) = false /\
  sorted_entries null_t_entries = Raise TypeError /\
  build null_t_entries utc = Raise TypeError /\
  build without_null_t_entries utc
  = Ok (mkEstimate utc [(t_10_00, 100)] [(t_10_00, 25)] [(t_10_00, 25)]) /\
  build empty_t_entries utc = build without_null_t_entries utc.
Proof.
  repeat split; vm_compute; reflexivity.
Qed.

(** * Further properties *)

(** ** The lookup on any series *)

Lemma timed_value_scan_stored :
  forall at_ (rest : odict Z) v0,
    timed_value_scan at_ v0 rest = v0 \/
    In (timed_value_scan at_ v0 rest) (values rest).
Proof.
  intros at_ rest. induction rest as [|[k v] rest IH]; intros v0.
  - left. reflexivity.
  - simpl. destruct (k >? at_); [left; reflexivity|].
    right. destruct (IH v) as [-> | Hin]; [left; reflexivity|right; exact Hin].
Qed.

Lemma stored_value_or_zero :
  forall (self : Estimate) (at_ : datetime),
    exists v,
      power_production_at_time self at_ = Some v /\
      (watts self = [] -> v = 0) /\
      (watts self <> [] -> In v (values (watts self))).
Proof.
  intros self at_. unfold power_production_at_time, _timed_value.
  destruct (watts self) as [|[k0 v0] rest].
  - exists 0. split; [reflexivity|]. split; [reflexivity|]. congruence.
  - destruct (normalize (timezone self) at_ <=? k0).
    + exists v0. rewrite or_zero_some. split; [reflexivity|].
      split; [discriminate|]. intros _. left. reflexivity.
    + exists (timed_value_scan (normalize (timezone self) at_) v0 rest).
      rewrite or_zero_some. split; [reflexivity|].
      split; [discriminate|]. intros _.
      destruct (timed_value_scan_stored (normalize (timezone self) at_) rest v0)
        as [-> | Hin]; [left; reflexivity|right; exact Hin].
Qed.

(** X1: whatever the order of its keys, [power_production_at_time] returns
    a number, never [None]: 0 on an empty [watts], and otherwise one of the
    values stored in [watts]. *)
Theorem power_at_is_stored_value :
  forall (self : Estimate) (at_ : datetime),
    exists v,
      power_production_at_time self at_ = Some v /\
      (watts self = [] -> v = 0) /\
      (watts self <> [] -> In v (values (watts self))).
Proof.
  intros self at_. apply stored_value_or_zero.
Qed.

Lemma timed_value_scan_beyond :
  forall at_ (rest : odict Z) k0 v0 (d : instant * Z),
    (forall k, In k (keys rest) -> k < at_) ->
    timed_value_scan at_ v0 rest = snd (last ((k0, v0) :: rest) d).
Proof.
  intros at_ rest. induction rest as [|[k v] rest IH]; intros k0 v0 d Hlt.
  - reflexivity.
  - simpl timed_value_scan.
    assert (Hk : k < at_) by (apply Hlt; left; reflexivity).
    destruct (Z.gtb_spec k at_); [lia|].
    rewrite (IH k v d); [|intros k' Hk'; apply Hlt; right; exact Hk'].
    reflexivity.
Qed.

Lemma timed_value_scan_after :
  forall (at_ : instant) (data : odict Z) (d : instant * Z),
    data <> [] ->
    (forall k, In k (keys data) -> k < at_) ->
    _timed_value at_ data = Some (snd (last data d)).
Proof.
  intros at_ data d Hne Hlt. destruct data as [|[k0 v0] rest]; [congruence|].
  unfold _timed_value.
  assert (Hk : k0 < at_) by (apply Hlt; left; reflexivity).
  destruct (Z.leb_spec at_ k0); [lia|].
  rewrite (timed_value_scan_beyond at_ rest k0 v0 d);
    [reflexivity|intros k Hin; apply Hlt; right; exact Hin].
Qed.

(** X2: at a time strictly after every key, [_timed_value] returns the
    value stored last, whatever the order of the keys. *)
Theorem timed_value_after_all_keys :
  forall (at_ : instant) (data : odict Z) (d : instant * Z),
    data <> [] ->
    (forall k, In k (keys data) -> k < at_) ->
    _timed_value at_ data = Some (snd (last data d)).
Proof.
  intros at_ data d Hne Hlt. apply timed_value_scan_after; assumption.
Qed.

Lemma timed_value_after_all_keys_witness :
  _timed_value (t_10_30 + 1) (watts estimate_sample) = Some 0.
Proof.
  apply (timed_value_after_all_keys (t_10_30 + 1) (watts estimate_sample)
                                    (0, 0)).
  - discriminate.
  - intros k Hin. simpl in Hin.
    destruct Hin as [<-|[<-|[<-|[]]]]; vm_compute; reflexivity.
Defined.

(** ** Sums over windows *)

Lemma window_sum_split :
  forall a b c (data : odict Z),
    a <= b -> b <= c ->
    sum_values (values (filter (in_window a c) data))
    = sum_values (values (filter (in_window a b) data))
      + sum_values (values (filter (in_window b c) data)).
Proof.
  intros a b c data Hab Hbc. induction data as [|[k v] data IH].
  - reflexivity.
  - simpl filter.
    change (in_window a c (k, v)) with ((a <? k) && (k <=? c)).
    change (in_window a b (k, v)) with ((a <? k) && (k <=? b)).
    change (in_window b c (k, v)) with ((b <? k) && (k <=? c)).
    unfold sum_values, values in *.
    destruct (Z.ltb_spec a k); destruct (Z.leb_spec k c);
      destruct (Z.leb_spec k b); destruct (Z.ltb_spec b k);
      simpl; lia.
Qed.

Lemma interval_sum_split :
  forall (a b c : instant) (data : odict Z),
    a <= b -> b <= c ->
    _interval_value_sum a c data
    = _interval_value_sum a b data + _interval_value_sum b c data.
Proof.
  intros a b c data Hab Hbc. rewrite !interval_value_sum_window.
  apply window_sum_split; assumption.
Qed.

(** X3: [_interval_value_sum] is additive over adjoining windows: the sum
    over [(a, c]] is the sum over [(a, b]] plus the sum over [(b, c]], for
    [a <= b <= c]. *)
Theorem interval_value_sum_split :
  forall (a b c : instant) (data : odict Z),
    a <= b -> b <= c ->
    _interval_value_sum a c data
    = _interval_value_sum a b data + _interval_value_sum b c data.
Proof.
  intros a b c data Hab Hbc. apply interval_sum_split; assumption.
Qed.

Lemma interval_value_sum_split_witness :
  _interval_value_sum t_10_00 t_10_30 (watts estimate_sample)
  = _interval_value_sum t_10_00 t_10_15 (watts estimate_sample)
    + _interval_value_sum t_10_15 t_10_30 (watts estimate_sample).
Proof.
  apply (interval_value_sum_split t_10_00 t_10_15 t_10_30);
    vm_compute; discriminate.
Defined.

Lemma energy_window_empty :
  forall (self : Estimate) (now : instant) (period_hours : Z),
    period_hours <= 0 ->
    sum_energy_production self now period_hours = 0.
Proof.
  intros self now n Hn. unfold sum_energy_production.
  rewrite interval_value_sum_window. apply window_sum_none.
  intros k v _ [H1 H2]. unfold timedelta_hours in H2.
  assert (0 < HOUR) by reflexivity. nia.
Qed.



Lemma window_sum_mono :
  forall start e e' (data : odict Z),
    (forall v, In v (values data) -> 0 <= v) ->
    e <= e' ->
    0 <= sum_values (values (filter (in_window start e) data))
    <= sum_values (values (filter (in_window start e') data)).
Proof.
  intros start e e' data. induction data as [|[k v] data IH]; intros Hpos Hle.
  - simpl. lia.
  - assert (Hv : 0 <= v) by (apply Hpos; left; reflexivity).
    assert (IH' := IH (fun x Hx => Hpos x (or_intror Hx)) Hle).
    simpl filter.
    change (in_window start e (k, v)) with ((start <? k) && (k <=? e)).
    change (in_window start e' (k, v)) with ((start <? k) && (k <=? e')).
    unfold sum_values, values in *.
    destruct (Z.ltb_spec start k); destruct (Z.leb_spec k e);
      destruct (Z.leb_spec k e'); simpl; lia.
Qed.

(** X5: when no [wh_hours] value is negative, [sum_energy_production] is
    never negative and does not decrease as the number of hours grows. *)
Theorem energy_between_monotone :
  forall (self : Estimate) (now : instant) (n m : Z),
    (forall v, In v (values (wh_hours self)) -> 0 <= v) ->
    n <= m ->
    0 <= sum_energy_production self now n
    <= sum_energy_production self now m.
Proof.
  intros self now n m Hpos Hnm. unfold sum_energy_production.
  rewrite !interval_value_sum_window.
  apply window_sum_mono; [exact Hpos|].
  unfold timedelta_hours. assert (0 < HOUR) by reflexivity. nia.
Qed.

Lemma energy_between_monotone_witness :
  0 <= sum_energy_production estimate_sample now_sample 1
  <= sum_energy_production estimate_sample now_sample 24.
Proof.
  apply (energy_between_monotone estimate_sample now_sample 1 24).
  - intros v Hin. simpl in Hin. destruct Hin as [<-|[]]. lia.
  - lia.
Defined.

Lemma key_filter_is_bucket :
  forall (d : odict Z) (k : instant),
    NoDup (keys d) ->
    sum_values (values (filter (fun kv => fst kv =? k) d)) = bucket d k.
Proof.
  intros d k. unfold bucket. induction d as [|[k' v] d IH]; intros Hnd.
  - reflexivity.
  - inversion Hnd as [|? ? Hfresh Hnd']; subst. simpl.
    rewrite (Z.eqb_sym k' k). destruct (Z.eqb_spec k k') as [->|Hne].
    + simpl. rewrite IH by exact Hnd'.
      destruct (od_get k' d) eqn:E; [|lia].
      exfalso. apply Hfresh.
      destruct (od_get_none_iff Z k' d) as [_ H].
      destruct (in_dec Z.eq_dec k' (keys d)) as [Hin|Hout]; [exact Hin|].
      rewrite (H Hout) in E. discriminate.
    + apply IH. exact Hnd'.
Qed.

Lemma hour_window_is_bucket :
  forall tz now j (d : odict Z),
    NoDup (keys d) ->
    (forall k, In k (keys d) -> on_the_hour tz k) ->
    sum_values
      (values (filter (in_window (window_start tz now + j * HOUR)
                                 (window_start tz now + (j + 1) * HOUR)) d))
    = bucket d (top_of_hour tz now + (j + 1) * HOUR).
Proof.
  intros tz now j d Hnd Hkeys.
  rewrite <- (key_filter_is_bucket d _ Hnd). f_equal. f_equal.
  apply filter_ext_in. intros [k v] Hin. unfold in_window. simpl fst.
  assert (Hk : on_the_hour tz k).
  { apply Hkeys. exact (in_map fst d (k, v) Hin). }
  unfold on_the_hour in Hk. revert Hk.
  unfold window_start, top_of_hour, replace_minute_second_microsecond.
  assert (HH : HOUR = 3600000000) by reflexivity.
  assert (HM : MINUTE = 60000000) by reflexivity.
  assert (HS : SECOND = 1000000) by reflexivity.
  assert (HU : MICROSECOND = 1) by reflexivity.
  rewrite HH, HM, HS, HU. intros Hk.
  pose proof (Z.mod_pos_bound (now + tz) 3600000000 ltac:(lia)) as Hb.
  pose proof (Z.div_mod (now + tz) 3600000000 ltac:(lia)) as Hd.
  pose proof (Z.div_mod (k + tz) 3600000000 ltac:(lia)) as Hkd.
  rewrite Hk in Hkd.
  set (q := (now + tz) / 3600000000) in *.
  set (m := (now + tz) mod 3600000000) in *.
  set (i := (k + tz) / 3600000000) in *.
  destruct (Z.ltb_spec (now - m + 59 * 60000000 + 59 * 1000000 + 999 * 1
                        + j * 3600000000) k);
    destruct (Z.leb_spec k (now - m + 59 * 60000000 + 59 * 1000000 + 999 * 1
                            + (j + 1) * 3600000000));
    destruct (Z.eqb_spec k (now - m + 0 * 60000000 + 0 * 1000000 + 0 * 1
                            + (j + 1) * 3600000000));
    try reflexivity; exfalso; lia.
Qed.



(** ** Keys and signs of the built series *)

Lemma fill_energy_keys :
  forall tz default_interval (w : odict Z) todo wp acc wp' acc',
    (forall h, In h (keys acc) <->
               exists k, In k (keys wp) /\ top_of_hour tz k = h) ->
    NoDup (keys wp) -> NoDup (keys acc) ->
    fill_energy tz default_interval w todo wp acc = Ok (wp', acc') ->
    (forall h, In h (keys acc') <->
               exists k, In k (keys wp') /\ top_of_hour tz k = h) /\
    NoDup (keys wp') /\ NoDup (keys acc') /\
    (forall k, In k (keys wp') -> In k (keys wp) \/ In k todo).
Proof.
  intros tz di w todo.
  induction todo as [|t todo IH]; intros wp acc wp' acc' HR Hnp Hna H.
  - cbn [fill_energy] in H. inversion H; subst. auto.
  - cbn [fill_energy] in H. destruct (od_get t w) as [p|]; [|discriminate].
    destruct (Qle_bool _ 0).
    + destruct (IH _ _ _ _ HR Hnp Hna H) as [HR' [Hnp' [Hna' Hin]]].
      repeat split; auto.
      * apply HR'.
      * apply HR'.
      * intros k Hk. destruct (Hin k Hk); [left|right; right]; assumption.
    + apply IH in H.
      * destruct H as [HR' [Hnp' [Hna' Hin]]]. repeat split; auto.
        -- apply HR'.
        -- apply HR'.
        -- intros k Hk. destruct (Hin k Hk) as [Hk'|Hk']; [|right; right; exact Hk'].
           rewrite keys_od_set in Hk'. apply in_add_key in Hk'.
           destruct Hk' as [Hk'| ->]; [left; exact Hk'|right; left; reflexivity].
      * intros h. unfold acc_add. rewrite !keys_od_set, in_add_key, HR.
        fold (top_of_hour tz t). split.
        -- intros [[k [Hk Hh]]| ->].
           ++ exists k. split; [apply in_add_key; left; exact Hk|exact Hh].
           ++ exists t. split; [apply in_add_key; right; reflexivity|reflexivity].
        -- intros [k [Hk Hh]]. apply in_add_key in Hk.
           destruct Hk as [Hk| ->]; [left; exists k; auto|right; auto].
      * rewrite keys_od_set. apply NoDup_add_key. exact Hnp.
      * unfold acc_add. rewrite keys_od_set. apply NoDup_add_key. exact Hna.
Qed.

(** X7: in every built Estimate each series has one entry per key; every
    key of [wh_period] is a key of [watts], so [wh_period] has no more
    entries than [watts]; and the keys of [wh_hours] are exactly the tops of
    the hours in which a [wh_period] key lies. *)
Theorem built_series_keys :
  forall (fromisoformat : string -> option datetime)
         (int_of_str : string -> option Z) (system_tz : tzinfo)
         (entries : list entry) (tz : tzinfo) (default_interval : timedelta)
         (est : Estimate),
    from_solar_manager_data fromisoformat int_of_str system_tz
                            entries tz default_interval = Ok est ->
    (NoDup (keys (watts est)) /\ NoDup (keys (wh_period est)) /\
     NoDup (keys (wh_hours est))) /\
    (forall k, In k (keys (wh_period est)) -> In k (keys (watts est))) /\
    (List.length (wh_period est) <= List.length (watts est))%nat /\
    (forall h, In h (keys (wh_hours est)) <->
               exists k, In k (keys (wh_period est)) /\ top_of_hour tz k = h).
Proof.
  intros fromisoformat int_of_str system_tz entries tz di est Hb.
  destruct (build_ok_parts _ _ _ _ _ _ _ Hb)
    as [l [acc [Hsort [Hw [He [Hh Htz]]]]]].
  destruct (fill_watts_ok _ _ _ _ _ _ _ _ _ Hw) as [_ [Hkeys _]].
  change (keys (@nil (instant * Z))) with (@nil instant) in Hkeys.
  assert (HR0 : forall h, In h (keys (@nil (instant * Q))) <->
                          exists k, In k (keys (@nil (instant * Z))) /\
                                    top_of_hour tz k = h).
  { intros h. simpl. split; [tauto|]. intros [k [[] _]]. }
  destruct (fill_energy_keys _ _ _ _ _ _ _ _ HR0 (NoDup_nil _) (NoDup_nil _) He)
    as [HR [Hnp [Hna Hin]]].
  assert (Hhk : keys (wh_hours est) = keys acc).
  { rewrite Hh. unfold keys. rewrite map_map. reflexivity. }
  assert (Hnw : NoDup (keys (watts est))).
  { rewrite Hkeys. apply fold_add_key_NoDup. constructor. }
  assert (Hsub : forall k, In k (keys (wh_period est)) ->
                           In k (keys (watts est))).
  { intros k Hk. destruct (Hin k Hk) as [[]|Hk'].
    rewrite Hkeys. apply fold_add_key_in. right. exact Hk'. }
  split; [rewrite Hhk; auto|]. split; [exact Hsub|]. split.
  - assert (Hl := NoDup_incl_length Hnp Hsub).
    unfold keys in Hl. rewrite !length_map in Hl. exact Hl.
  - intros h. rewrite Hhk. apply HR.
Qed.

Lemma built_series_keys_witness :
  (List.length (wh_period estimate_sample)
   <= List.length (watts estimate_sample))%nat.
Proof.
  destruct (built_series_keys iso_parse dec_int utc scenario_entries utc
              default_interval_15min estimate_sample scenario_builds)
    as [_ [_ [Hlen _]]].
  exact Hlen.
Defined.

Lemma py_round_nonneg : forall x : Q, (0 <= x)%Q -> 0 <= py_round x.
Proof.
  intros x Hx. unfold py_round.
  assert (Hf : 0 <= Qfloor x).
  { change 0 with (Qfloor 0). apply Qfloor_resp_le. exact Hx. }
  destruct (Qcompare (x - inject_Z (Qfloor x)) (1 # 2));
    [destruct (Z.even (Qfloor x))| |]; lia.
Qed.

Lemma energy_nonneg :
  forall p d : Z,
    0 <= p -> 0 <= d ->
    (0 <= inject_Z p * (inject_Z d / inject_Z HOUR))%Q.
Proof.
  intros p d Hp Hd.
  change (inject_Z HOUR) with (3600000000 # 1)%Q.
  unfold Qle, Qdiv, Qmult, Qinv, inject_Z. simpl. nia.
Qed.

Lemma od_get_in_values :
  forall (V : Type) (k : instant) (d : odict V) (v : V),
    od_get k d = Some v -> In v (values d).
Proof.
  intros V k d v. induction d as [|[k' v'] d IH]; simpl; [discriminate|].
  destruct (k =? k'); intros H.
  - inversion H. left. reflexivity.
  - right. apply IH. exact H.
Qed.

Lemma od_set_values :
  forall (V : Type) (P : V -> Prop) (k : instant) (v : V) (d : odict V),
    P v -> (forall x, In x (values d) -> P x) ->
    forall x, In x (values (od_set k v d)) -> P x.
Proof.
  intros V P k v d Hv. induction d as [|[k' v'] d IH]; intros Hd x Hx.
  - simpl in Hx. destruct Hx as [<-|[]]. exact Hv.
  - simpl in Hx. destruct (k =? k'); simpl in Hx.
    + destruct Hx as [<-|Hx]; [exact Hv|]. apply Hd. right. exact Hx.
    + destruct Hx as [<-|Hx]; [apply Hd; left; reflexivity|].
      apply IH; [|exact Hx]. intros y Hy. apply Hd. right. exact Hy.
Qed.

Lemma fill_energy_nonneg :
  forall tz default_interval (w : odict Z) todo wp acc wp' acc',
    (forall v, In v (values w) -> 0 <= v) ->
    (forall v, In v (values wp) -> 0 <= v) ->
    (forall q, In q (values acc) -> (0 <= q)%Q) ->
    fill_energy tz default_interval w todo wp acc = Ok (wp', acc') ->
    (forall v, In v (values wp') -> 0 <= v) /\
    (forall q, In q (values acc') -> (0 <= q)%Q).
Proof.
  intros tz di w todo.
  induction todo as [|t todo IH]; intros wp acc wp' acc' Hw Hp Ha H.
  - cbn [fill_energy] in H. inversion H; subst. auto.
  - cbn [fill_energy] in H.
    destruct (od_get t w) as [p|] eqn:Hget; [|discriminate].
    set (t_end := match todo with
                  | t_next :: _ => t_next
                  | [] => t + di
                  end) in *.
    destruct (Qle_bool (inject_Z (t_end - t) / inject_Z HOUR) 0) eqn:E.
    + eapply IH; eauto.
    + assert (Hpos : 0 <= t_end - t).
      { destruct (Z.le_gt_cases (t_end - t) 0) as [Hle|Hgt]; [|lia].
        apply delta_hours_nonpositive in Hle. congruence. }
      assert (Hwh : (0 <= inject_Z p * (inject_Z (t_end - t) / inject_Z HOUR))%Q).
      { apply energy_nonneg; [|exact Hpos].
        apply Hw. eapply od_get_in_values. exact Hget. }
      eapply IH; [exact Hw| | |exact H].
      * apply od_set_values; [apply py_round_nonneg; exact Hwh|exact Hp].
      * unfold acc_add. apply od_set_values; [|exact Ha].
        destruct (od_get _ acc) as [x|] eqn:Hx.
        -- apply od_get_in_values in Hx. apply Ha in Hx. lra.
        -- lra.
Qed.

(** X8: a built Estimate whose powers are all non-negative has no negative
    energy: every value of [wh_period] and of [wh_hours] is at least 0. *)
Theorem built_energies_nonneg :
  forall (fromisoformat : string -> option datetime)
         (int_of_str : string -> option Z) (system_tz : tzinfo)
         (entries : list entry) (tz : tzinfo) (default_interval : timedelta)
         (est : Estimate),
    from_solar_manager_data fromisoformat int_of_str system_tz
                            entries tz default_interval = Ok est ->
    (forall v, In v (values (watts est)) -> 0 <= v) ->
    (forall v, In v (values (wh_period est)) -> 0 <= v) /\
    (forall v, In v (values (wh_hours est)) -> 0 <= v).
Proof.
  intros fromisoformat int_of_str system_tz entries tz di est Hb Hw.
  destruct (build_ok_parts _ _ _ _ _ _ _ Hb)
    as [l [acc [Hsort [_ [He [Hh Htz]]]]]].
  destruct (fill_energy_nonneg _ _ _ _ _ _ _ _ Hw
              (fun v (H : In v (values (@nil (instant * Z)))) =>
                 match H with end)
              (fun q (H : In q (values (@nil (instant * Q)))) =>
                 match H with end) He) as [Hp Ha].
  split; [exact Hp|]. intros v Hv. rewrite Hh, values_round in Hv.
  apply in_map_iff in Hv. destruct Hv as [q [<- Hq]].
  apply py_round_nonneg. apply Ha. exact Hq.
Qed.

Lemma built_energies_nonneg_witness :
  Forall (fun v => 0 <= v) (values (wh_hours estimate_sample)).
Proof.
  destruct (built_energies_nonneg iso_parse dec_int utc scenario_entries utc
              default_interval_15min estimate_sample scenario_builds)
    as [_ Hh].
  - intros v Hin. simpl in Hin. destruct Hin as [<-|[<-|[<-|[]]]]; lia.
  - apply Forall_forall. exact Hh.
Defined.

(** ** The periods of a built Estimate *)

Lemma od_get_in_nodup :
  forall (V : Type) (d : odict V) (k : instant) (v : V),
    NoDup (keys d) -> In (k, v) d -> od_get k d = Some v.
Proof.
  intros V d k v. induction d as [|[k' v'] d IH]; intros Hnd Hin.
  - contradiction.
  - inversion Hnd as [|? ? Hfresh Hnd']; subst. simpl.
    destruct Hin as [E|Hin].
    + inversion E; subst. rewrite Z.eqb_refl. reflexivity.
    + destruct (Z.eqb_spec k k') as [->|Hne].
      * exfalso. apply Hfresh. exact (in_map fst d (k', v) Hin).
      * apply IH; assumption.
Qed.

Lemma nondecreasing_head_least :
  forall (t : instant) (l : list instant) x,
    nondecreasing (t :: l) -> In x (t :: l) -> t <= x.
Proof.
  intros t l x Hs Hin. apply StronglySorted_inv in Hs.
  destruct Hs as [_ Hall]. rewrite Forall_forall in Hall.
  destruct Hin as [->|Hin]; [lia|]. apply Hall. exact Hin.
Qed.

Lemma skip_test :
  forall d : Z, Qle_bool (inject_Z d / inject_Z HOUR) 0 = (d <=? 0).
Proof.
  intros d. destruct (Z.leb_spec d 0) as [Hle|Hgt].
  - apply delta_hours_nonpositive. exact Hle.
  - destruct (Qle_bool (inject_Z d / inject_Z HOUR) 0) eqn:E; [|reflexivity].
    apply delta_hours_nonpositive in E. lia.
Qed.

(** The second loop over timestamps in time order, [s] being the items of
    [watts] from the next timestamp on. *)
Lemma fill_energy_periods :
  forall tz default_interval (w : odict Z) todo (s : odict Z) wp acc wp' acc',
    (forall k v, In (k, v) s -> od_get k w = Some v) ->
    nondecreasing todo ->
    increasing (keys s) ->
    (forall x, In x (keys s) <-> In x todo) ->
    (forall k t, In k (keys wp) -> In t todo -> k < t) ->
    fill_energy tz default_interval w todo wp acc = Ok (wp', acc') ->
    wp' = wp ++ period_energies default_interval s.
Proof.
  intros tz di w todo.
  induction todo as [|t todo IH]; intros s wp acc wp' acc' Hget Hnd Hinc Hiff Hlt H.
  - cbn [fill_energy] in H. inversion H; subst.
    destruct s as [|[k v] s].
    + rewrite app_nil_r. reflexivity.
    + exfalso. apply (Hiff k). left. reflexivity.
  - destruct s as [|[k0 p0] s'].
    { exfalso. apply (proj2 (Hiff t)). left. reflexivity. }
    assert (Hk0 : k0 = t).
    { assert (t <= k0).
      { apply (nondecreasing_head_least t todo k0 Hnd).
        apply Hiff. left. reflexivity. }
      assert (k0 <= t).
      { apply (increasing_head_least k0 (keys s') t Hinc).
        apply Hiff. left. reflexivity. }
      lia. }
    subst k0.
    assert (Hfresh : ~ In t (keys wp)).
    { intros Hin. specialize (Hlt t t Hin (or_introl eq_refl)). lia. }
    pose proof Hinc as Hinc0.
    change (keys ((t, p0) :: s')) with (t :: keys s') in Hinc.
    apply StronglySorted_inv in Hinc. destruct Hinc as [Hinc' Hall].
    rewrite Forall_forall in Hall.
    pose proof Hnd as Hnd0.
    apply StronglySorted_inv in Hnd. destruct Hnd as [Hnd' Hallt].
    rewrite Forall_forall in Hallt.
    cbn [fill_energy] in H.
    rewrite (Hget t p0 (or_introl eq_refl)) in H.
    destruct todo as [|t1 todo''].
    + assert (Hs' : s' = []).
      { destruct s' as [|[k1 p1] s'']; [reflexivity|]. exfalso.
        assert (Hin1 : In k1 (keys ((t, p0) :: (k1, p1) :: s'')))
          by (right; left; reflexivity).
        apply Hiff in Hin1. destruct Hin1 as [E|[]].
        specialize (Hall k1 (or_introl eq_refl)). lia. }
      subst s'. cbn [period_energies]. rewrite skip_test in H.
      destruct (t + di - t <=? 0).
      * cbn [fill_energy] in H. inversion H; subst.
        rewrite app_nil_r. reflexivity.
      * cbn [fill_energy] in H. inversion H; subst.
        apply od_set_fresh. exact Hfresh.
    + rewrite skip_test in H.
      destruct (Z.leb_spec (t1 - t) 0) as [Hle|Hgt].
      * assert (Ht1 : t1 = t).
        { specialize (Hallt t1 (or_introl eq_refl)). lia. }
        subst t1.
        apply (IH ((t, p0) :: s') wp acc wp' acc'); auto.
        -- intros x. rewrite Hiff. simpl. tauto.
        -- intros k t' Hk Ht'. apply Hlt; [exact Hk|right; exact Ht'].
      * assert (Hin1 : In t1 (keys s')).
        { assert (Hin : In t1 (keys ((t, p0) :: s')))
            by (apply Hiff; right; left; reflexivity).
          destruct Hin as [E|Hin]; [simpl in E; lia|exact Hin]. }
        destruct s' as [|[k1 p1] s'']; [contradiction|].
        assert (Hk1 : k1 = t1).
        { assert (k1 <= t1)
            by (apply (increasing_head_least k1 (keys s'') t1 Hinc' Hin1)).
          assert (Hk1in : In k1 (t :: t1 :: todo'')).
          { apply Hiff. right. left. reflexivity. }
          assert (t < k1) by (apply Hall; left; reflexivity).
          destruct Hk1in as [E|Hk1in]; [lia|].
          pose proof (nondecreasing_head_least t1 todo'' k1 Hnd' Hk1in). lia. }
        subst k1.
        cbn [period_energies].
        destruct (Z.leb_spec (t1 - t) 0) as [Hbad|_]; [lia|].
        apply (IH ((t1, p1) :: s'')) in H.
        -- rewrite H, od_set_fresh by exact Hfresh.
           rewrite <- app_assoc. reflexivity.
        -- intros k v Hin. apply Hget. right. exact Hin.
        -- exact Hnd'.
        -- exact Hinc'.
        -- intros x. split.
           ++ intros Hx. assert (Hx' : In x (t :: t1 :: todo'')).
              { apply Hiff. right. exact Hx. }
              destruct Hx' as [E|Hx']; [|exact Hx'].
              specialize (Hall x Hx). lia.
           ++ intros Hx. assert (Hx' : In x (keys ((t, p0) :: (t1, p1) :: s''))).
              { apply Hiff. right. exact Hx. }
              destruct Hx' as [E|Hx']; [|exact Hx'].
              simpl in E. subst x.
              pose proof (nondecreasing_head_least t1 todo'' t Hnd' Hx). lia.
        -- intros k t' Hk Ht'. rewrite keys_od_set in Hk.
           apply in_add_key in Hk.
           pose proof (nondecreasing_head_least t1 todo'' t' Hnd' Ht').
           destruct Hk as [Hk| ->]; [|lia].
           apply Hlt; [exact Hk|right; exact Ht'].
Qed.



(** ** Entries that do not count *)

Section Discarded.

Variable fromisoformat : string -> option datetime.
Variable int_of_str : string -> option Z.
Variable system_tz : tzinfo.

Abbreviation build_with :=
  (from_solar_manager_data fromisoformat int_of_str system_tz).

(** X10: an entry without the key [t] is ignored wherever it stands in the
    payload: the construction returns the same Estimate, or raises the same
    exception, as without it. *)
Theorem build_ignores_entry_without_t :
  forall (l1 l2 : list entry) (e : entry) (tz : tzinfo)
         (default_interval : timedelta),
    has_key "t" e = false ->
    build_with (l1 ++ e :: l2) tz default_interval
    = build_with (l1 ++ l2) tz default_interval.
Proof.
  intros l1 l2 e tz di He. unfold from_solar_manager_data, sorted_entries.
  rewrite !filter_app. simpl filter. rewrite He. reflexivity.
Qed.

Lemma fill_watts_nothing_kept :
  forall tz l ts (w : odict Z),
    (forall e, In e l -> kept e = false) ->
    fill_watts fromisoformat int_of_str system_tz tz l ts w = Ok (ts, w).
Proof.
  intros tz l ts w. induction l as [|e l IH]; intros H.
  - reflexivity.
  - simpl. assert (He : kept e = false) by (apply H; left; reflexivity).
    unfold kept in He. rewrite He. simpl. apply IH.
    intros x Hx. apply H. right. exact Hx.
Qed.

(** X11: a payload in which no entry has the key [t], the empty payload
    among them, builds an Estimate with three empty series; on it the power
    at any time is 0, the energy over any number of hours is 0, and the
    forecast list of the next 24 hours holds 96 zeros. *)
Theorem payload_without_timestamps :
  forall (entries : list entry) (tz : tzinfo) (default_interval : timedelta),
    (forall e, In e entries -> has_key "t" e = false) ->
    build_with entries tz default_interval = Ok (mkEstimate tz [] [] []) /\
    (forall at_, power_production_at_time (mkEstimate tz [] [] []) at_ = Some 0) /\
    (forall now n, sum_energy_production (mkEstimate tz [] [] []) now n = 0) /\
    (forall now,
        _power_production_next_24h_15min (mkEstimate tz [] [] []) now
        = repeat (Some 0) 96).
Proof.
  intros entries tz di H.
  assert (Hf : filter (has_key "t") entries = []).
  { induction entries as [|e l IH]; [reflexivity|]. simpl.
    rewrite (H e (or_introl eq_refl)). apply IH.
    intros x Hx. apply H. right. exact Hx. }
  split.
  { unfold from_solar_manager_data, sorted_entries. rewrite Hf. reflexivity. }
  split; [reflexivity|]. split; [reflexivity|].
  intros now. vm_compute. reflexivity.
Qed.

End Discarded.

Lemma payload_without_timestamps_witness :
  build [[("pW"%string, JInt 5)]; []] utc = Ok estimate_empty.
Proof.
  destruct (payload_without_timestamps iso_parse dec_int utc
              [[("pW"%string, JInt 5)]; []] utc default_interval_15min)
    as [Hb _].
  - intros e Hin. simpl in Hin. destruct Hin as [<-|[<-|[]]]; reflexivity.
  - exact Hb.
Defined.

Lemma build_ignores_entry_without_t_witness :
  build without_null_t_entries utc
  = build [sample "2024-01-01T10:00:00Z" (JInt 100)] utc.
Proof.
  apply (build_ignores_entry_without_t iso_parse dec_int utc []
           [sample "2024-01-01T10:00:00Z" (JInt 100)]
           [("pW"%string, JInt 100)] utc default_interval_15min).
  reflexivity.
Defined.

(** ** Sorting, filtering and the order of the payload *)

Section SortFilter.

Context {A : Type}.
Variable le : A -> A -> bool.
Hypothesis le_total : forall a b, le a b = true \/ le b a = true.
Hypothesis le_trans :
  forall a b c, le a b = true -> le b c = true -> le a c = true.

Lemma insert_sorted_least :
  forall x l,
    (forall y, In y l -> le x y = true) -> insert_sorted le x l = x :: l.
Proof.
  intros x [|y l] H; [reflexivity|]. simpl.
  rewrite (H y (or_introl eq_refl)). reflexivity.
Qed.

Lemma filter_insert_sorted :
  forall (p : A -> bool) x l,
    StronglySorted (fun a b => le a b = true) l ->
    filter p (insert_sorted le x l)
    = if p x then insert_sorted le x (filter p l) else filter p l.
Proof.
  intros p x l Hs. induction Hs as [|y l Hs IH Hall].
  - simpl. destruct (p x); reflexivity.
  - simpl insert_sorted. destruct (le x y) eqn:E.
    + change (filter p (x :: y :: l))
        with (if p x then x :: filter p (y :: l) else filter p (y :: l)).
      destruct (p x) eqn:Px; [|reflexivity].
      rewrite insert_sorted_least; [reflexivity|].
      intros z Hz. apply (proj1 (filter_In p z (y :: l))) in Hz.
      destruct Hz as [Hz _]. rewrite Forall_forall in Hall.
      destruct Hz as [<-|Hz]; [exact E|].
      apply (le_trans x y z); [exact E|apply Hall; exact Hz].
    + simpl filter. rewrite IH. destruct (p y) eqn:Py; destruct (p x) eqn:Px;
        try reflexivity.
      simpl insert_sorted. rewrite E. reflexivity.
Qed.

Lemma filter_stable_sort :
  forall (p : A -> bool) l,
    filter p (stable_sort le l) = stable_sort le (filter p l).
Proof.
  intros p l. induction l as [|x l IH]; [reflexivity|].
  simpl stable_sort.
  rewrite filter_insert_sorted
    by (apply stable_sort_sorted; [exact le_total|exact le_trans]).
  simpl filter. rewrite IH. destruct (p x); reflexivity.
Qed.

(** Two sorted lists with the same items are equal when items that are
    each at most the other are the same item. *)
Lemma sorted_perm_equal :
  forall l l',
    StronglySorted (fun a b => le a b = true) l ->
    StronglySorted (fun a b => le a b = true) l' ->
    Permutation l l' ->
    (forall a b, In a l -> In b l ->
                 le a b = true -> le b a = true -> a = b) ->
    l = l'.
Proof.
  intros l. induction l as [|a l IH]; intros l' Hs Hs' Hp Hanti.
  - apply Permutation_nil in Hp. subst. reflexivity.
  - destruct l' as [|b l'].
    { apply Permutation_sym, Permutation_nil in Hp. discriminate. }
    apply StronglySorted_inv in Hs. destruct Hs as [Hs Hall].
    apply StronglySorted_inv in Hs'. destruct Hs' as [Hs' Hall'].
    rewrite Forall_forall in Hall, Hall'.
    assert (Hab : a = b).
    { assert (Hbin : In b (a :: l)).
      { apply (Permutation_in _ (Permutation_sym Hp)). left. reflexivity. }
      assert (Hain : In a (b :: l')).
      { apply (Permutation_in _ Hp). left. reflexivity. }
      destruct Hbin as [E|Hbin]; [exact E|].
      destruct Hain as [E|Hain]; [symmetry; exact E|].
      apply Hanti; [left; reflexivity|right; exact Hbin| |].
      - apply Hall. exact Hbin.
      - apply Hall'. exact Hain. }
    subst b. f_equal. apply IH; auto.
    + apply Permutation_cons_inv in Hp. exact Hp.
    + intros x y Hx Hy. apply Hanti; right; assumption.
Qed.

End SortFilter.

Lemma filter_perm :
  forall (f : entry -> bool) l l',
    Permutation l l' -> Permutation (filter f l) (filter f l').
Proof.
  intros f l l' H. induction H; simpl.
  - constructor.
  - destruct (f x); [apply perm_skip|]; exact IHPermutation.
  - destruct (f x), (f y); try apply Permutation_refl. apply perm_swap.
  - eapply perm_trans; eauto.
Qed.

Lemma stable_sort_short :
  forall (A : Type) (le : A -> A -> bool) (l : list A),
    (List.length l <= 1)%nat -> stable_sort le l = l.
Proof.
  intros A le [|x [|y l]] H; simpl in H; try lia; reflexivity.
Qed.

(** With text keys only, the sort always succeeds. *)
Lemma sorted_entries_text :
  forall entries,
    (forall e, In e entries -> has_key "t" e = true ->
               is_str (key_t e) = true) ->
    sorted_entries entries
    = Ok (stable_sort str_key_le (filter (has_key "t") entries)).
Proof.
  intros entries H. unfold sorted_entries.
  destruct (Z.leb_spec (Z.of_nat (List.length (filter (has_key "t") entries))) 1)
    as [Hlen|Hlen].
  - rewrite stable_sort_short by lia. reflexivity.
  - assert (Hall : forallb (fun e => is_str (key_t e))
                           (filter (has_key "t") entries) = true).
    { apply forallb_forall. intros e He. apply filter_In in He.
      destruct He as [Hin Hk]. apply H; assumption. }
    rewrite Hall. reflexivity.
Qed.

Section Payload.

Variable fromisoformat : string -> option datetime.
Variable int_of_str : string -> option Z.
Variable system_tz : tzinfo.

Abbreviation build_with :=
  (from_solar_manager_data fromisoformat int_of_str system_tz).
Abbreviation fill_watts_with :=
  (fill_watts fromisoformat int_of_str system_tz).

(** The first loop passes over the entries it does not keep. *)
Lemma fill_watts_kept_only :
  forall tz l ts (w : odict Z),
    fill_watts_with tz l ts w = fill_watts_with tz (filter kept l) ts w.
Proof.
  intros tz l. induction l as [|e l IH]; intros ts w; [reflexivity|].
  simpl filter. unfold kept at 1.
  destruct (truthy_opt (dict_get "t" e)) eqn:E.
  - simpl. rewrite E. simpl.
    destruct (dict_get "t" e) as [[|b|n|q|s]|]; try reflexivity.
    destruct (fromisoformat (replace_Z s)); [|reflexivity].
    destruct (py_int int_of_str (py_or (dict_get "pW" e) (JInt 0)));
      [|reflexivity].
    simpl. apply IH.
  - simpl. rewrite E. simpl. apply IH.
Qed.

(** X12: among entries whose [t] are all texts, an entry whose [t] is the
    empty text is ignored wherever it stands in the payload: the
    construction returns the same Estimate, or raises the same exception,
    as without it. *)
Theorem build_ignores_empty_text_t :
  forall (l1 l2 : list entry) (e : entry) (tz : tzinfo)
         (default_interval : timedelta),
    dict_get "t" e = Some (JStr "") ->
    (forall x, In x (l1 ++ l2) -> has_key "t" x = true ->
               is_str (key_t x) = true) ->
    build_with (l1 ++ e :: l2) tz default_interval
    = build_with (l1 ++ l2) tz default_interval.
Proof.
  intros l1 l2 e tz di He Hstr.
  assert (Hke : kept e = false) by (unfold kept; rewrite He; reflexivity).
  assert (Hstr' : forall x, In x (l1 ++ e :: l2) -> has_key "t" x = true ->
                            is_str (key_t x) = true).
  { intros x Hx Hk. apply in_app_iff in Hx. destruct Hx as [Hx|[<-|Hx]].
    - apply Hstr; [apply in_app_iff; left; exact Hx|exact Hk].
    - unfold key_t. rewrite He. reflexivity.
    - apply Hstr; [apply in_app_iff; right; exact Hx|exact Hk]. }
  unfold from_solar_manager_data.
  rewrite (sorted_entries_text _ Hstr), (sorted_entries_text _ Hstr').
  cbn [bind].
  rewrite (fill_watts_kept_only tz (stable_sort _ (filter _ (l1 ++ e :: l2)))).
  rewrite (fill_watts_kept_only tz (stable_sort _ (filter _ (l1 ++ l2)))).
  rewrite !(filter_stable_sort str_key_le str_key_le_total str_key_le_trans).
  rewrite !kept_filter_has_key, !filter_app. simpl filter. rewrite Hke.
  reflexivity.
Qed.

(** X13: when the [t] of the entries are texts that differ pairwise, the
    order of the entries in the payload does not matter: a reordered
    payload builds the same Estimate, or raises the same exception. *)
Theorem build_independent_of_payload_order :
  forall (entries entries' : list entry) (tz : tzinfo)
         (default_interval : timedelta),
    Permutation entries entries' ->
    (forall x, In x entries -> has_key "t" x = true ->
               is_str (key_t x) = true) ->
    NoDup (map (fun x => str_value (key_t x))
               (filter (has_key "t") entries)) ->
    build_with entries tz default_interval
    = build_with entries' tz default_interval.
Proof.
  intros entries entries' tz di Hp Hstr Hnd.
  assert (Hstr' : forall x, In x entries' -> has_key "t" x = true ->
                            is_str (key_t x) = true).
  { intros x Hx. apply Hstr.
    apply (Permutation_in _ (Permutation_sym Hp)). exact Hx. }
  unfold from_solar_manager_data.
  rewrite (sorted_entries_text _ Hstr), (sorted_entries_text _ Hstr').
  assert (Hfp := filter_perm (has_key "t") _ _ Hp).
  replace (stable_sort str_key_le (filter (has_key "t") entries'))
    with (stable_sort str_key_le (filter (has_key "t") entries));
    [reflexivity|].
  apply (sorted_perm_equal str_key_le).
  - apply stable_sort_sorted; [apply str_key_le_total|apply str_key_le_trans].
  - apply stable_sort_sorted; [apply str_key_le_total|apply str_key_le_trans].
  - eapply perm_trans; [apply stable_sort_perm|].
    eapply perm_trans; [exact Hfp|]. apply Permutation_sym, stable_sort_perm.
  - intros a b Ha Hb Hab Hba.
    apply (Permutation_in _ (stable_sort_perm str_key_le _)) in Ha.
    apply (Permutation_in _ (stable_sort_perm str_key_le _)) in Hb.
    assert (Hkey : str_value (key_t a) = str_value (key_t b)).
    { apply String.leb_antisym; assumption. }
    clear Hab Hba Hfp.
    induction (filter (has_key "t") entries) as [|x l IH];
      [contradiction|].
    simpl in Hnd. inversion Hnd as [|? ? Hfresh Hnd']; subst.
    destruct Ha as [<-|Ha], Hb as [<-|Hb].
    + reflexivity.
    + exfalso. apply Hfresh. rewrite Hkey.
      apply (in_map (fun x => str_value (key_t x))). exact Hb.
    + exfalso. apply Hfresh. rewrite <- Hkey.
      apply (in_map (fun x => str_value (key_t x))). exact Ha.
    + apply IH; assumption.
Qed.

End Payload.

Lemma build_ignores_empty_text_t_witness :
  build empty_t_entries utc
  = build [sample "2024-01-01T10:00:00Z" (JInt 100)] utc.
Proof.
  apply (build_ignores_empty_text_t iso_parse dec_int utc []
           [sample "2024-01-01T10:00:00Z" (JInt 100)]
           [("t"%string, JStr ""); ("pW"%string, JInt 100)]
           utc default_interval_15min).
  - reflexivity.
  - intros x Hin _. simpl in Hin. destruct Hin as [<-|[]]. reflexivity.
Defined.

Lemma build_independent_of_payload_order_witness :
  build scenario_entries utc = build (rev scenario_entries) utc.
Proof.
  apply (build_independent_of_payload_order iso_parse dec_int utc
           scenario_entries (rev scenario_entries) utc default_interval_15min).
  - apply Permutation_rev.
  - intros x Hin _. simpl in Hin.
    destruct Hin as [<-|[<-|[<-|[]]]]; reflexivity.
  - simpl. repeat (constructor; [simpl; intuition discriminate|]).
    constructor.
Defined.

(** ** What the construction can raise *)

Section Raises.

Variable fromisoformat : string -> option datetime.
Variable int_of_str : string -> option Z.
Variable system_tz : tzinfo.

Abbreviation build_with :=
  (from_solar_manager_data fromisoformat int_of_str system_tz).
Abbreviation fill_watts_with :=
  (fill_watts fromisoformat int_of_str system_tz).
Abbreviation readable_with := (readable fromisoformat int_of_str).

Lemma py_int_or_zero :
  forall (v : option json) e,
    py_int int_of_str (py_or v (JInt 0)) = Raise e ->
    e = ValueError /\
    exists s, v = Some (JStr s) /\ int_of_str s = None.
Proof.
  intros v e H. unfold py_or in H.
  destruct v as [[|b|n|q|s]|]; simpl in H; try discriminate.
  - destruct b; discriminate.
  - destruct (negb (n =? 0)); discriminate.
  - destruct (negb (Qnum q =? 0)); discriminate.
  - destruct (negb (String.eqb s EmptyString)); simpl in H; [|discriminate].
    destruct (int_of_str s) eqn:E; [discriminate|].
    inversion H. split; [reflexivity|]. exists s. auto.
Qed.

Lemma fill_watts_raises :
  forall tz l ts (w : odict Z) e,
    fill_watts_with tz l ts w = Raise e ->
    (e = AttributeError /\
     exists x, In x l /\ kept x = true /\ is_str (key_t x) = false) \/
    (e = ValueError /\
     exists x, In x l /\ kept x = true /\ is_str (key_t x) = true /\
               readable_with x = false).
Proof.
  intros tz l. induction l as [|x l IH]; intros ts w e H.
  - discriminate.
  - assert (Hrest : forall ts' w',
               fill_watts_with tz l ts' w' = Raise e ->
               (e = AttributeError /\
                exists y, In y (x :: l) /\ kept y = true /\
                          is_str (key_t y) = false) \/
               (e = ValueError /\
                exists y, In y (x :: l) /\ kept y = true /\
                          is_str (key_t y) = true /\
                          readable_with y = false)).
    { intros ts' w' H'. destruct (IH ts' w' e H') as [[He [y [Hy Hp]]]|[He [y [Hy Hp]]]].
      - left. split; [exact He|]. exists y. split; [right; exact Hy|exact Hp].
      - right. split; [exact He|]. exists y. split; [right; exact Hy|exact Hp]. }
    simpl in H. unfold kept, key_t, readable.
    destruct (dict_get "t" x) as [[|b|n|q|s]|] eqn:Et; simpl in H.
    + eapply Hrest; eauto.
    + destruct b; simpl in H; [|eapply Hrest; eauto].
      inversion H. left. split; [reflexivity|]. exists x.
      unfold kept, key_t. rewrite Et. simpl. auto.
    + destruct (n =? 0) eqn:En; simpl in H; [eapply Hrest; eauto|].
      inversion H. left. split; [reflexivity|]. exists x.
      unfold kept, key_t. rewrite Et. simpl. rewrite En. auto.
    + destruct (Qnum q =? 0) eqn:En; simpl in H; [eapply Hrest; eauto|].
      inversion H. left. split; [reflexivity|]. exists x.
      unfold kept, key_t. rewrite Et. simpl. rewrite En. auto.
    + destruct (String.eqb s EmptyString) eqn:Es; simpl in H;
        [eapply Hrest; eauto|].
      destruct (fromisoformat (replace_Z s)) as [d|] eqn:Ed.
      * destruct (py_int int_of_str (py_or (dict_get "pW" x) (JInt 0)))
          as [p|e'] eqn:Ep; simpl in H; [eapply Hrest; eauto|].
        inversion H; subst e'.
        destruct (py_int_or_zero _ _ Ep) as [-> _].
        right. split; [reflexivity|]. exists x.
        unfold kept, key_t, readable. rewrite Et. simpl.
        rewrite Es, Ed, Ep. simpl. auto.
      * inversion H. right. split; [reflexivity|]. exists x.
        unfold kept, key_t, readable. rewrite Et. simpl.
        rewrite Es, Ed. simpl. auto.
    + eapply Hrest; eauto.
Qed.

Lemma sorted_entries_raises :
  forall entries e, sorted_entries entries = Raise e -> e = TypeError.
Proof.
  intros entries e H. unfold sorted_entries in H.
  destruct (Z.of_nat _ <=? 1); [discriminate|].
  destruct (forallb _ _); [discriminate|].
  destruct (forallb _ _); [discriminate|].
  inversion H. reflexivity.
Qed.

Lemma build_raises_cases :
  forall (entries : list entry) (tz : tzinfo) (default_interval : timedelta)
         (e : exn),
    build_with entries tz default_interval = Raise e ->
    (e = TypeError /\ sorted_entries entries = Raise TypeError) \/
    (e = AttributeError /\
     exists x, In x entries /\ kept x = true /\ is_str (key_t x) = false) \/
    (e = ValueError /\
     exists x, In x entries /\ is_str (key_t x) = true /\
               readable_with x = false).
Proof.
  intros entries tz di e H. unfold from_solar_manager_data in H.
  destruct (sorted_entries entries) as [l|e0] eqn:Hsort.
  - cbn [bind] in H.
    destruct (sorted_entries_ok _ _ Hsort) as [Hperm _].
    assert (Hsub : forall x, In x l -> In x entries).
    { intros x Hx. apply (Permutation_in _ Hperm) in Hx.
      apply filter_In in Hx. tauto. }
    destruct (fill_watts_with tz l [] []) as [[ts w]|e1] eqn:Hw.
    + cbn [bind fst snd] in H.
      destruct (fill_watts_ok _ _ _ _ _ _ _ _ _ Hw) as [Hts [Hkeys _]].
      simpl in Hts. subst ts.
      change (keys (@nil (instant * Z))) with (@nil instant) in Hkeys.
      destruct (fill_energy_total tz di w
                  (stamps fromisoformat system_tz tz l) [] []) as [r Hr].
      { intros t Ht. rewrite Hkeys. apply fold_add_key_in. right. exact Ht. }
      rewrite Hr in H. discriminate.
    + cbn [bind] in H. inversion H; subst e1.
      destruct (fill_watts_raises _ _ _ _ _ Hw)
        as [[He [x [Hx [Hk Hs]]]]|[He [x [Hx [Hk [Hs Hr]]]]]].
      * right. left. split; [exact He|]. exists x. auto.
      * right. right. split; [exact He|]. exists x. auto.
  - cbn [bind] in H. inversion H; subst e0.
    rewrite (sorted_entries_raises _ _ Hsort) in *. left. auto.
Qed.


Variable session : string -> option (string * string) -> nat -> response.

Abbreviation estimate_with :=
  (estimate fromisoformat int_of_str system_tz session).

(** X15: each error of [estimate] that is a [SolarManagerForecastError]
    has one cause: no endpoint configured, and then no request is sent; a
    request that failed; or a body that is a JSON object without a list
    under [data].  What the construction raises is never of that class. *)
Theorem estimate_typed_errors :
  forall (self : SolarManagerSolarForecast) (sent : nat) (m : err_msg),
    fst (estimate_with self sent) = Raise (SolarManagerForecastError m) ->
    (m = NoBaseUrl /\ nonempty (_base_url self) = false /\
     snd (estimate_with self sent) = sent) \/
    (exists url,
        _base_url self = Some url /\
        snd (estimate_with self sent) = S sent /\
        ((m = FetchFailed /\ session url (_auth self) sent = Failed) \/
         (m = BadFormat /\
          (session url (_auth self) sent = Json (PayloadDict None) \/
           session url (_auth self) sent
           = Json (PayloadDict (Some DataOther)))))).
Proof.
  intros self sent m H. unfold estimate in *.
  destruct (nonempty (_base_url self)) eqn:Hcfg; simpl in *.
  - destruct (_base_url self) as [url|] eqn:Hurl; [|discriminate].
    right. exists url. split; [reflexivity|].
    destruct (session url (_auth self) sent) as [|[[[es|]|]|]] eqn:Hr;
      simpl in *; try discriminate.
    + split; [reflexivity|]. inversion H. left. auto.
    + exfalso.
      destruct (build_raises_cases _ _ _ _ H)
        as [[E _]|[[E _]|[E _]]]; discriminate.
    + split; [reflexivity|]. inversion H. right. auto.
    + split; [reflexivity|]. inversion H. right. auto.
  - left. inversion H. auto.
Qed.

End Raises.


Lemma estimate_typed_errors_witness :
  nonempty (_base_url (init None None None None None)) = false.
Proof.
  destruct (estimate_typed_errors iso_parse dec_int utc session_sample
              (init None None None None None) 0 NoBaseUrl)
    as [[_ [H _]]|[url [Hurl _]]].
  - reflexivity.
  - exact H.
  - discriminate.
Defined.

(** ** The forecast list of sensor.py *)

Lemma map_const_seq :
  forall (B : Type) (f : nat -> B) (c : B) (a n : nat),
    (forall i, (a <= i < a + n)%nat -> f i = c) ->
    map f (seq a n) = repeat c n.
Proof.
  intros B f c a n. revert a. induction n as [|n IH]; intros a H.
  - reflexivity.
  - simpl. rewrite (H a) by lia. f_equal. apply IH.
    intros i Hi. apply H. lia.
Qed.

(** X16: the forecast list has 96 entries and is flat outside the forecast:
    when the last of its 96 times is at or before the first key of [watts]
    it holds the first value 96 times, and when the current time is after
    every key it holds the value stored last 96 times. *)
Theorem next_24h_flat_outside_forecast :
  forall (estimate : Estimate) (now : instant) first_ts first_val rest,
    watts estimate = (first_ts, first_val) :: rest ->
    List.length (_power_production_next_24h_15min estimate now) = 96%nat /\
    (now + timedelta_minutes (15 * 95) <= first_ts ->
     _power_production_next_24h_15min estimate now
     = repeat (Some first_val) 96) /\
    ((forall k, In k (keys (watts estimate)) -> k < now) ->
     _power_production_next_24h_15min estimate now
     = repeat (Some (snd (last (watts estimate) (first_ts, first_val)))) 96).
Proof.
  intros estimate now first_ts first_val rest Hw.
  unfold _power_production_next_24h_15min.
  split; [rewrite length_map, length_seq; reflexivity|].
  assert (HM : MINUTE = 60000000) by reflexivity.
  split.
  - intros Hle. apply map_const_seq. intros i Hi.
    unfold power_production_at_time, normalize. rewrite Hw.
    unfold _timed_value, timedelta_minutes in *. rewrite HM in *.
    destruct (Z.leb_spec (now + 15 * Z.of_nat i * 60000000) first_ts);
      [apply or_zero_some|lia].
  - intros Hlt. apply map_const_seq. intros i Hi.
    unfold power_production_at_time, normalize.
    rewrite (timed_value_scan_after (now + timedelta_minutes (15 * Z.of_nat i))
               (watts estimate) (first_ts, first_val)).
    + apply or_zero_some.
    + rewrite Hw. discriminate.
    + intros k Hk. specialize (Hlt k Hk).
      unfold timedelta_minutes. rewrite HM. lia.
Qed.

Lemma next_24h_flat_outside_forecast_witness :
  _power_production_next_24h_15min estimate_sample (t_10_30 + 1)
  = repeat (Some 0) 96.
Proof.
  destruct (next_24h_flat_outside_forecast estimate_sample (t_10_30 + 1)
              t_10_00 100 [(t_10_15, 200); (t_10_30, 0)] eq_refl)
    as [_ [_ H]].
  apply H. intros k Hin. simpl in Hin.
  destruct Hin as [<-|[<-|[<-|[]]]]; vm_compute; reflexivity.
Defined.

(** X17: the sensors read the same lookup: [power_production_now] and the
    states of the sensors for the next 15 and 30 minutes are the first
    three entries of the forecast list, and each of them is 0 on an empty
    [watts] and a stored value otherwise. *)
Theorem sensors_read_forecast_list :
  forall (estimate : Estimate) (now : instant),
    nth_error (_power_production_next_24h_15min estimate now) 0
    = Some (power_production_now estimate now) /\
    nth_error (_power_production_next_24h_15min estimate now) 1
    = Some (power_production_next_15minutes estimate now) /\
    nth_error (_power_production_next_24h_15min estimate now) 2
    = Some (power_production_next_30minutes estimate now) /\
    forall x, In x (_power_production_next_24h_15min estimate now) ->
              exists v, x = Some v /\
                        (watts estimate = [] -> v = 0) /\
                        (watts estimate <> [] ->
                         In v (values (watts estimate))).
Proof.
  intros estimate now.
  unfold _power_production_next_24h_15min, power_production_now,
    power_production_next_15minutes, power_production_next_30minutes.
  split.
  { cbn [seq map nth_error]. unfold timedelta_minutes.
    replace (now + 15 * Z.of_nat 0 * MINUTE) with now by (simpl; lia).
    reflexivity. }
  split; [reflexivity|]. split; [reflexivity|].
  intros x Hx. apply in_map_iff in Hx. destruct Hx as [i [<- _]].
  apply stored_value_or_zero.
Qed.

(** ** The endpoint of the client *)

Section Endpoint.

Variable fromisoformat : string -> option datetime.
Variable int_of_str : string -> option Z.
Variable system_tz : tzinfo.

Abbreviation estimate_of := (estimate fromisoformat int_of_str system_tz).
Abbreviation update_of := (_async_update_data fromisoformat int_of_str system_tz).

Lemma estimate_at_url :
  forall session (self : SolarManagerSolarForecast) (sent : nat) (url : string),
    _base_url self = Some url ->
    url <> EmptyString ->
    estimate_of session self sent
    = match session url (_auth self) sent with
      | Failed => (Raise (SolarManagerForecastError FetchFailed), S sent)
      | Json PayloadOther => (Raise AttributeError, S sent)
      | Json (PayloadDict (Some (DataList entries))) =>
          (from_solar_manager_data fromisoformat int_of_str system_tz
             entries (_timezone self) default_interval_15min, S sent)
      | Json (PayloadDict _) =>
          (Raise (SolarManagerForecastError BadFormat), S sent)
      end.
Proof.
  intros session self sent url Hurl Hne. unfold estimate.
  rewrite Hurl. simpl.
  destruct (String.eqb_spec url EmptyString); [contradiction|]. simpl.
  destruct (session url (_auth self) sent) as [|[[[es|]|]|]]; reflexivity.
Qed.


(** ** From the form to the request *)

Lemma forecast_url_nonempty : forall id, forecast_url id <> EmptyString.
Proof. intros id. unfold forecast_url. simpl. discriminate. Qed.

Lemma coordinator_url :
  forall (entry : ConfigEntry) (tz : option tzinfo) (id : string),
    or_else (config_get CONF_SMART_MANAGER_ID (entry_options entry))
            (config_get CONF_SMART_MANAGER_ID (entry_data entry)) = Some id ->
    id <> EmptyString ->
    _base_url (coordinator_forecast entry tz) = Some (forecast_url id).
Proof.
  intros entry tz id Hid Hne. unfold coordinator_forecast. rewrite Hid.
  unfold init.
  assert (Hn : nonempty (Some id) = true).
  { simpl. destruct (String.eqb_spec id EmptyString); [contradiction|].
    reflexivity. }
  rewrite Hn. cbn [_base_url].
  assert (Hu : nonempty (Some (forecast_url id)) = true).
  { simpl. reflexivity. }
  rewrite Hu. reflexivity.
Qed.

(** X19: the user step of the config flow creates an entry only from an
    input with a non-empty account id that is not configured yet, with the
    input as data and as options and a non-empty title; an input without
    an id gets the form back with the error [invalid_host]; the lookup of
    the id after the validation never fails. *)
Theorem user_step_creates_valid_entry :
  forall (configured : string -> bool) (input : config),
    async_step_user configured (Some input) <> FlowKeyError /\
    (forall title data options,
        async_step_user configured (Some input)
        = CreateEntry title data options ->
        data = input /\ options = Some input /\ title <> EmptyString /\
        exists id,
          config_get CONF_SMART_MANAGER_ID input = Some id /\
          id <> EmptyString /\ configured id = false) /\
    (nonempty (config_get CONF_SMART_MANAGER_ID input) = false ->
     async_step_user configured (Some input)
     = ShowForm input (Some "invalid_host"%string)).
Proof.
  intros configured input. unfold async_step_user, validate_input.
  destruct (config_get CONF_SMART_MANAGER_ID input) as [id|] eqn:Hid.
  - simpl. destruct (String.eqb_spec id EmptyString) as [->|Hne]; simpl.
    + split; [discriminate|]. split; [discriminate|reflexivity].
    + split; [destruct (configured id); discriminate|].
      split; [|discriminate].
      intros title data options H.
      destruct (configured id) eqn:Hc; [discriminate|].
      split; [congruence|]. split; [congruence|].
      split; [|exists id; auto].
      assert (Ht : title
                   = match or_else (config_get CONF_NAME input) (Some NAME) with
                     | Some t => t
                     | None => NAME
                     end) by congruence.
      rewrite Ht. unfold or_else.
      destruct (config_get CONF_NAME input) as [name|]; simpl;
        [|discriminate].
      destruct (String.eqb_spec name EmptyString); simpl;
        [discriminate|assumption].
  - simpl. split; [discriminate|]. split; [discriminate|reflexivity].
Qed.

(** X20: the coordinator of an entry that the user step created, or whose
    options the options step replaced, has the forecast URL of the account
    id as its endpoint: its update never fails for want of an endpoint and
    sends exactly one request each time. *)
Theorem created_entry_has_endpoint :
  forall (configured : string -> bool) (input : config) (title : string)
         (data : config) (tz : option tzinfo),
    (forall options,
        async_step_user configured (Some input)
        = CreateEntry title data (Some options) ->
        exists id,
          config_get CONF_SMART_MANAGER_ID input = Some id /\
          _base_url (coordinator_forecast (mkEntry title data options) tz)
          = Some (forecast_url id) /\
          forall session sent,
            snd (update_of session
                           (coordinator_forecast (mkEntry title data options)
                                                 tz) sent) = S sent) /\
    (forall entry,
        async_step_init entry (Some input) = CreateEntry title data None ->
        exists id,
          config_get CONF_SMART_MANAGER_ID input = Some id /\
          _base_url (coordinator_forecast
                       (mkEntry (entry_title entry) (entry_data entry) data)
                       tz)
          = Some (forecast_url id) /\
          forall session sent,
            snd (update_of session
                           (coordinator_forecast
                              (mkEntry (entry_title entry) (entry_data entry)
                                       data) tz) sent) = S sent).
Proof.
  intros configured input title data tz.
  assert (Hsent : forall c id session sent,
             _base_url c = Some (forecast_url id) ->
             snd (update_of session c sent) = S sent).
  { intros c id session sent Hurl. unfold _async_update_data.
    rewrite (estimate_at_url session c sent _ Hurl (forecast_url_nonempty id)).
    destruct (session (forecast_url id) (_auth c) sent) as [|[[[es|]|]|]];
      try reflexivity.
    destruct (from_solar_manager_data _ _ _ es _ _) as [e|[| | | |m]];
      reflexivity. }
  assert (Hvalid : forall t,
             validate_input input = Valid t ->
             exists id,
               config_get CONF_SMART_MANAGER_ID input = Some id /\
               id <> EmptyString).
  { intros t Hv. unfold validate_input in Hv.
    destruct (config_get CONF_SMART_MANAGER_ID input) as [id|];
      simpl in Hv; [|discriminate].
    destruct (String.eqb_spec id EmptyString); simpl in Hv; [discriminate|].
    exists id. auto. }
  assert (Hor : forall id other,
             id <> EmptyString -> or_else (Some id) other = Some id).
  { intros id other Hne. unfold or_else. simpl.
    destruct (String.eqb_spec id EmptyString); [contradiction|reflexivity]. }
  split.
  - intros options H. unfold async_step_user in H.
    destruct (validate_input input) as [t|] eqn:Hv; [|discriminate].
    destruct (Hvalid t eq_refl) as [id [Hid Hne]]. rewrite Hid in H.
    destruct (configured id); [discriminate|].
    inversion H as [[Ht Hd Ho]]. clear H. subst data options.
    assert (Hurl : _base_url (coordinator_forecast (mkEntry title input input) tz)
                   = Some (forecast_url id)).
    { apply coordinator_url; [|exact Hne]. simpl. rewrite Hid.
      apply Hor. exact Hne. }
    exists id. split; [exact Hid|]. split; [exact Hurl|].
    intros session sent. eapply Hsent. exact Hurl.
  - intros entry H. unfold async_step_init in H.
    destruct (validate_input input) as [t|] eqn:Hv; [|discriminate].
    destruct (Hvalid t eq_refl) as [id [Hid Hne]].
    inversion H as [[Ht Hd]]. clear H. subst data.
    assert (Hurl : _base_url (coordinator_forecast
                                (mkEntry (entry_title entry)
                                         (entry_data entry) input) tz)
                   = Some (forecast_url id)).
    { apply coordinator_url; [|exact Hne]. simpl. rewrite Hid.
      apply Hor. exact Hne. }
    exists id. split; [exact Hid|]. split; [exact Hurl|].
    intros session sent. eapply Hsent. exact Hurl.
Qed.

(** X21: with an account id in the options or, failing that, in the data,
    the coordinator's endpoint is the forecast URL of that id, whatever
    [base_url] the options hold; with no id and no options there is no
    endpoint, also when the data hold a [base_url], and every update fails
    as a communication error without a request. *)
Theorem coordinator_endpoint :
  forall (entry : ConfigEntry) (tz : option tzinfo),
    (forall id,
        or_else (config_get CONF_SMART_MANAGER_ID (entry_options entry))
                (config_get CONF_SMART_MANAGER_ID (entry_data entry))
        = Some id ->
        id <> EmptyString ->
        _base_url (coordinator_forecast entry tz) = Some (forecast_url id)) /\
    (nonempty (config_get CONF_SMART_MANAGER_ID (entry_data entry)) = false ->
     entry_options entry = [] ->
     forall session sent,
       update_of session (coordinator_forecast entry tz) sent
       = (UpdateFailed true, sent)).
Proof.
  intros entry tz. split.
  - intros id Hid Hne. apply coordinator_url; assumption.
  - intros Hd Ho session sent.
    unfold _async_update_data, estimate, coordinator_forecast, init.
    rewrite Ho. simpl. unfold or_else. simpl. rewrite Hd. simpl.
    reflexivity.
Qed.

End Endpoint.

(** ** The energy platform *)

Lemma sd_set_fresh :
  forall (k : string) (v : Z) (d : sdict),
    ~ In k (map fst d) -> sd_set k v d = d ++ [(k, v)].
Proof.
  intros k v d. induction d as [|[k' v'] d IH]; intros Hfresh.
  - reflexivity.
  - simpl in *. destruct (String.eqb_spec k k') as [->|Hne].
    + exfalso. apply Hfresh. left. reflexivity.
    + rewrite IH; [reflexivity|]. intros Hin. apply Hfresh. right. exact Hin.
Qed.

Lemma fold_sd_set_distinct :
  forall (f : instant -> string) (items : odict Z) (d : sdict),
    NoDup (map fst d ++ map f (keys items)) ->
    fold_left (fun d kv => sd_set (f (fst kv)) (snd kv) d) items d
    = d ++ map (fun kv => (f (fst kv), snd kv)) items.
Proof.
  intros f items. induction items as [|[k v] items IH]; intros d Hnd.
  - simpl. rewrite app_nil_r. reflexivity.
  - simpl fold_left. simpl in Hnd.
    rewrite sd_set_fresh.
    + rewrite IH.
      * rewrite <- app_assoc. reflexivity.
      * rewrite map_app. simpl. rewrite <- app_assoc. simpl. exact Hnd.
    + apply NoDup_remove_2 in Hnd. intros Hin. apply Hnd.
      apply in_app_iff. left. exact Hin.
Qed.

(** X22: the energy platform returns [None] when there is no coordinator,
    no data yet, or an empty [wh_hours]; otherwise, the keys of [wh_hours]
    being distinct and [isoformat] giving them distinct texts, it returns
    the hourly energies unchanged and in order, each under the text of its
    hour. *)
Theorem energy_platform_hours :
  forall (isoformat : tzinfo -> instant -> string)
         (coordinator : option (option Estimate)),
    (async_get_solar_forecast isoformat coordinator = None <->
     coordinator = None \/ coordinator = Some None \/
     exists estimate,
       coordinator = Some (Some estimate) /\ wh_hours estimate = []) /\
    (forall estimate,
        coordinator = Some (Some estimate) ->
        wh_hours estimate <> [] ->
        NoDup (map (isoformat (timezone estimate)) (keys (wh_hours estimate))) ->
        async_get_solar_forecast isoformat coordinator
        = Some (map (fun kv => (isoformat (timezone estimate) (fst kv), snd kv))
                    (wh_hours estimate))).
Proof.
  intros isoformat coordinator. split.
  - unfold async_get_solar_forecast.
    destruct coordinator as [[estimate|]|].
    + destruct (wh_hours estimate) as [|kv items] eqn:E.
      * split; [|reflexivity]. intros _. right. right. exists estimate. auto.
      * split; [discriminate|].
        intros [H|[H|[e [H1 H2]]]]; try discriminate.
        inversion H1; subst. congruence.
    + split; [auto|reflexivity].
    + split; [auto|reflexivity].
  - intros estimate -> Hne Hnd. unfold async_get_solar_forecast.
    destruct (wh_hours estimate) as [|kv items] eqn:E; [congruence|].
    f_equal.
    apply (fold_sd_set_distinct (isoformat (timezone estimate)) (kv :: items) []).
    exact Hnd.
Qed.

Lemma energy_platform_hours_witness :
  async_get_solar_forecast (fun _ _ => "2024-01-01T10:00:00+00:00"%string)
                           (Some (Some estimate_sample))
  = Some [("2024-01-01T10:00:00+00:00"%string, 75)].
Proof.
  destruct (energy_platform_hours
              (fun _ _ => "2024-01-01T10:00:00+00:00"%string)
              (Some (Some estimate_sample))) as [_ H].
  apply (H estimate_sample eq_refl).
  - discriminate.
  - simpl. repeat constructor. simpl. tauto.
Defined.


Lemma user_step_creates_valid_entry_witness :
  exists id,
    config_get CONF_SMART_MANAGER_ID input_sample = Some id /\
    id <> EmptyString.
Proof.
  destruct (user_step_creates_valid_entry (fun _ => false) input_sample)
    as [_ [H _]].
  destruct (H "Roof"%string input_sample (Some input_sample) eq_refl)
    as [_ [_ [_ [id [Hid [Hne _]]]]]].
  exists id. split; assumption.
Defined.

Lemma created_entry_has_endpoint_witness :
  exists id,
    _base_url (coordinator_forecast
                 (mkEntry "Roof" input_sample input_sample) (Some utc))
    = Some (forecast_url id).
Proof.
  destruct (created_entry_has_endpoint iso_parse dec_int utc
              (fun _ => false) input_sample "Roof"%string input_sample
              (Some utc)) as [H _].
  destruct (H input_sample eq_refl) as [id [_ [Hurl _]]].
  exists id. exact Hurl.
Defined.

Lemma coordinator_endpoint_witness :
  _async_update_data iso_parse dec_int utc session_sample
                     (coordinator_forecast entry_without_id None) 0
  = (UpdateFailed true, 0%nat).
Proof.
  destruct (coordinator_endpoint iso_parse dec_int utc entry_without_id None)
    as [_ H].
  apply H; reflexivity.
Defined.

(** ** Samples that share a timestamp *)

Lemma od_get_od_set :
  forall (V : Type) (k t : instant) (v : V) (d : odict V),
    od_get k (od_set t v d) = if k =? t then Some v else od_get k d.
Proof.
  intros V k t v d. induction d as [|[k' v'] d IH].
  - simpl. reflexivity.
  - simpl. destruct (Z.eqb_spec t k') as [->|Hne]; simpl.
    + destruct (k =? k'); reflexivity.
    + rewrite IH. destruct (Z.eqb_spec k k') as [->|Hne'].
      * destruct (Z.eqb_spec k' t); [congruence|reflexivity].
      * reflexivity.
Qed.

Lemma stable_sort_equal_keys :
  forall (A : Type) (le : A -> A -> bool) (l : list A),
    (forall a b, In a l -> In b l -> le a b = true) ->
    stable_sort le l = l.
Proof.
  intros A le l. induction l as [|x l IH]; intros H; [reflexivity|].
  simpl. rewrite IH by (intros a b Ha Hb; apply H; right; assumption).
  apply insert_sorted_least. intros y Hy.
  apply H; [left; reflexivity|right; exact Hy].
Qed.

Section LastWins.

Variable fromisoformat : string -> option datetime.
Variable int_of_str : string -> option Z.
Variable system_tz : tzinfo.
Variable tz : tzinfo.

Abbreviation stamp_of := (stamp fromisoformat system_tz tz).
Abbreviation reading_of := (reading fromisoformat int_of_str system_tz tz).
Abbreviation last_of := (last_reading fromisoformat int_of_str system_tz tz).
Abbreviation stamped_at := (stamped fromisoformat system_tz tz).
Abbreviation store := (store fromisoformat int_of_str system_tz tz).

Lemma fill_watts_store :
  forall l ts (w : odict Z) ts' w',
    fill_watts fromisoformat int_of_str system_tz tz l ts w = Ok (ts', w') ->
    w' = fold_left store l w.
Proof.
  induction l as [|e l IH]; intros ts w ts' w' H.
  - simpl in H. inversion H. reflexivity.
  - simpl in H. simpl fold_left. unfold store at 2, reading, stamp.
    destruct (dict_get "t" e) as [[|b|n|q|s]|]; simpl in H.
    + eapply IH; eauto.
    + destruct b; simpl in H; [discriminate|]. eapply IH; eauto.
    + destruct (n =? 0); simpl in H; [|discriminate]. eapply IH; eauto.
    + destruct (Qnum q =? 0); simpl in H; [|discriminate]. eapply IH; eauto.
    + destruct (String.eqb s EmptyString); simpl in H; [eapply IH; eauto|].
      destruct (fromisoformat (replace_Z s)) as [d|]; [|discriminate].
      destruct (py_int int_of_str (py_or (dict_get "pW" e) (JInt 0)))
        as [p|x]; simpl in H; [|discriminate].
      eapply IH; eauto.
    + eapply IH; eauto.
Qed.

Lemma get_fold_store :
  forall k l (w : odict Z),
    od_get k (fold_left store l w) = last_of k (od_get k w) l.
Proof.
  intros k l. induction l as [|e l IH]; intros w; [reflexivity|].
  simpl fold_left. rewrite IH. unfold last_reading. simpl fold_left.
  f_equal. unfold store.
  destruct (reading_of e) as [[t p]|]; [|reflexivity].
  rewrite od_get_od_set. rewrite (Z.eqb_sym k t). reflexivity.
Qed.

Lemma last_reading_stamped :
  forall k l acc, last_of k acc l = last_of k acc (filter (stamped_at k) l).
Proof.
  intros k l. induction l as [|e l IH]; intros acc; [reflexivity|].
  unfold last_reading in *. simpl filter.
  destruct (stamped_at k e) eqn:Es.
  - simpl fold_left. apply IH.
  - simpl fold_left. rewrite IH. f_equal.
    unfold stamped in Es. unfold reading.
    destruct (stamp_of e) as [t|]; [|reflexivity].
    destruct (py_int int_of_str (py_or (dict_get "pW" e) (JInt 0)));
      [rewrite Es|]; reflexivity.
Qed.

Lemma stamped_filter_has_key :
  forall k l,
    filter (stamped_at k) (filter (has_key "t") l) = filter (stamped_at k) l.
Proof.
  intros k l. induction l as [|e l IH]; [reflexivity|].
  simpl filter. destruct (has_key "t" e) eqn:E.
  - simpl filter. rewrite IH. reflexivity.
  - rewrite IH. unfold stamped at 2.
    rewrite (stamp_needs_key fromisoformat system_tz tz e E). reflexivity.
Qed.

(** X23: when the [t] of the entries are texts and the entries of one
    timestamp all carry the same text, the power that [watts] holds for
    that timestamp is the one of the last of them in the payload: the
    stable sort keeps their order and each assignment overwrites the one
    before. *)
Theorem duplicate_timestamp_last_wins :
  forall (entries : list entry) (default_interval : timedelta)
         (est : Estimate) (k : instant),
    from_solar_manager_data fromisoformat int_of_str system_tz
                            entries tz default_interval = Ok est ->
    (forall x, In x entries -> has_key "t" x = true ->
               is_str (key_t x) = true) ->
    (forall x y, In x entries -> In y entries ->
                 stamp_of x = Some k -> stamp_of y = Some k ->
                 key_t x = key_t y) ->
    od_get k (watts est) = last_of k None entries.
Proof.
  intros entries di est k Hb Hstr Hsame.
  destruct (build_ok_parts _ _ _ _ _ _ _ Hb)
    as [l [acc [Hsort [Hw [He [Hh Htz]]]]]].
  rewrite (sorted_entries_text _ Hstr) in Hsort. inversion Hsort; subst l.
  rewrite (fill_watts_store _ _ _ _ _ Hw), get_fold_store.
  change (od_get k (@nil (instant * Z))) with (@None Z).
  rewrite last_reading_stamped,
    (filter_stable_sort str_key_le str_key_le_total str_key_le_trans),
    stamped_filter_has_key.
  rewrite stable_sort_equal_keys.
  - symmetry. apply last_reading_stamped.
  - intros a b Ha Hb'. apply filter_In in Ha. apply filter_In in Hb'.
    destruct Ha as [Ha Hsa], Hb' as [Hb' Hsb].
    unfold stamped in Hsa, Hsb.
    destruct (stamp_of a) as [ta|] eqn:Ea; [|discriminate].
    destruct (stamp_of b) as [tb|] eqn:Eb; [|discriminate].
    apply Z.eqb_eq in Hsa. apply Z.eqb_eq in Hsb. subst ta tb.
    unfold str_key_le. rewrite (Hsame a b Ha Hb' Ea Eb).
    destruct (String.leb_total (str_value (key_t b)) (str_value (key_t b)));
      assumption.
Qed.

End LastWins.

Lemma duplicate_timestamp_last_wins_witness :
  last_reading iso_parse dec_int utc utc t_10_00 None duplicate_entries
  = Some 200.
Proof.
  assert (Hb : build duplicate_entries utc
               = Ok (mkEstimate utc [(t_10_00, 200)] [(t_10_00, 50)]
                                [(t_10_00, 50)]))
    by (vm_compute; reflexivity).
  rewrite <- (duplicate_timestamp_last_wins iso_parse dec_int utc utc
                duplicate_entries default_interval_15min
                (mkEstimate utc [(t_10_00, 200)] [(t_10_00, 50)]
                            [(t_10_00, 50)])
                t_10_00 Hb).
  - vm_compute. reflexivity.
  - intros x Hin _. simpl in Hin. destruct Hin as [<-|[<-|[]]]; reflexivity.
  - intros x y Hx Hy _ _. simpl in Hx, Hy.
    destruct Hx as [<-|[<-|[]]]; destruct Hy as [<-|[<-|[]]]; reflexivity.
Defined.
